(** * A shallow embedding of the presentation controller in [app.js]

    The file models the [PresentationApp] class (slide navigation, the
    delayed settle continuation and the bookmaker chart) as transformers of
    an explicit world state, and the [DataUtils.calculateArbitrageProfit]
    helper over binary64 floats.

    Conventions
    - slide numbers are JavaScript numbers, that is binary64 floats, [NaN]
      and fractions included; a caller of [goToSlide] or [setSlide] can also
      leave the argument out, which passes [undefined].  Comparisons and
      arithmetic convert with [ToNumber], as JavaScript does.  Values of
      other types (strings, objects) are outside the model;
    - [this.slides] is the NodeList of [.slide] elements; only the presence
      of the class ['active'] on each element matters, so it is a
      [list bool], read with JavaScript's behaviour for a key that is not an
      index of the list ([undefined], which is falsy);
    - [textContent = v] is recorded as the value assigned; the page shows its
      string conversion;
    - [setTimeout(f, d)] appends [(d, f)] to a list of pending timers; the
      event loop later fires one of them.  The model lets any pending timer
      fire, which includes the order a browser would choose;
    - what the code does to the outside (console output, chart construction
      and disposal, [preventDefault]) is appended to an effect log. *)

From Stdlib Require Import ZArith Floats Ascii String List Lia.
From stdpp Require Import base list strings pretty.

Set Warnings "-inexact-float".
Open Scope Z_scope.

(** ** JavaScript numbers *)

(** What [currentSlide] and the argument of [goToSlide] can hold. *)
Inductive numeric :=
| Num (x : float)
| Undefined.

(** [ToNumber]: [undefined] converts to [NaN]. *)
Definition ToNumber (v : numeric) : float :=
  match v with
  | Num x => x
  | Undefined => nan
  end.

(** [v === y] for a number [y]: false for [undefined] and for [NaN]. *)
Definition strict_eq (v : numeric) (y : float) : bool :=
  match v with
  | Num x => (x =? y)%float
  | Undefined => false
  end.

(** The non-negative integer a number denotes, if it denotes one: the numbers
    whose string conversion can be an index of a list. *)
Definition float_integer (x : float) : option Z :=
  match Prim2SF x with
  | S754_zero _ => Some 0
  | S754_finite false m e =>
      if 0 <=? e then Some (Z.pos m * 2 ^ e)
      else if Z.pos m mod 2 ^ (- e) =? 0 then Some (Z.pos m / 2 ^ (- e))
      else None
  | _ => None
  end.

(** Whether a value is a number other than [NaN]. *)
Definition is_number (v : numeric) : bool :=
  match v with
  | Num x => negb (is_nan x)
  | Undefined => false
  end.

(** Whether a value is a whole number (of either sign). *)
Definition is_whole (v : numeric) : bool :=
  match v with
  | Num x =>
      match Prim2SF x with
      | S754_zero _ => true
      | S754_finite _ m e => (0 <=? e) || (Z.pos m mod 2 ^ (- e) =? 0)
      | _ => false
      end
  | Undefined => false
  end.

(** ** The page and the outside world *)

(** What a [textContent] holds: the text of the markup, or a value the code
    assigned to it. *)
Inductive content :=
| Text (s : string)
| Value (v : numeric).

(** A navigation button: the two properties the code assigns. *)
Record Button := mkButton { disabled : bool; textContent : string }.

(** Handles of charts built by [new Chart(...)]. *)
Definition ChartHandle := nat.

(** The two callbacks the class passes to [setTimeout]. *)
Inductive task :=
| Settle       (* the arrow function of goToSlide, lines 118-129 *)
| InitChart.   (* () => this.initializeBookmakerChart() *)

(** The data part of the configuration object given to [new Chart]: the
    category labels and, per dataset, its label and its values. *)
Record ChartData := mkChartData {
  data_labels : list string;
  data_datasets : list (string * list float)
}.

(** Observable effects, oldest first. *)
Inductive effect :=
| ConsoleLog (msg : string) (args : list float)
| ConsoleError (msg : string)
| PreventDefault
| ChartNew (h : ChartHandle) (data : ChartData)
| ChartDestroy (h : ChartHandle).

(** What the page answers when [initializeBookmakerChart] runs: whether
    [document.getElementById('bookmaker-chart')] finds the canvas, and
    whether [new Chart(ctx, config)] throws. *)
Record ChartEnv := mkChartEnv { canvasFound : bool; chartThrows : bool }.

(** The fields of a [PresentationApp] instance. *)
Record PresentationApp := mkApp {
  currentSlide : numeric;
  totalSlides : float;
  isTransitioning : bool;
  slides : list bool;
  prevBtn : option Button;
  nextBtn : option Button;
  currentSlideSpan : option content;
  totalSlidesSpan : option content;
  bookmakerChart : option ChartHandle
}.

(** The instance together with what lives outside it: pending timers, the
    [startX] variable captured by the touch listeners, the effect log and
    the supply of fresh chart handles. *)
Record World := mkWorld {
  app : PresentationApp;
  timers : list (Z * task);
  startX : Z;
  effects : list effect;
  nextHandle : ChartHandle
}.

(** The elements the constructor looks up in the document. *)
Record Document := mkDocument {
  doc_slides : list bool;
  doc_prevBtn : option Button;
  doc_nextBtn : option Button;
  doc_currentSlideSpan : option content;
  doc_totalSlidesSpan : option content
}.

(** *** Field updates *)

Definition set_currentSlide (n : numeric) (a : PresentationApp) : PresentationApp :=
  mkApp n (totalSlides a) (isTransitioning a) (slides a) (prevBtn a) (nextBtn a)
        (currentSlideSpan a) (totalSlidesSpan a) (bookmakerChart a).

Definition set_isTransitioning (b : bool) (a : PresentationApp) : PresentationApp :=
  mkApp (currentSlide a) (totalSlides a) b (slides a) (prevBtn a) (nextBtn a)
        (currentSlideSpan a) (totalSlidesSpan a) (bookmakerChart a).

Definition set_slides (l : list bool) (a : PresentationApp) : PresentationApp :=
  mkApp (currentSlide a) (totalSlides a) (isTransitioning a) l (prevBtn a) (nextBtn a)
        (currentSlideSpan a) (totalSlidesSpan a) (bookmakerChart a).

Definition set_prevBtn (b : option Button) (a : PresentationApp) : PresentationApp :=
  mkApp (currentSlide a) (totalSlides a) (isTransitioning a) (slides a) b (nextBtn a)
        (currentSlideSpan a) (totalSlidesSpan a) (bookmakerChart a).

Definition set_nextBtn (b : option Button) (a : PresentationApp) : PresentationApp :=
  mkApp (currentSlide a) (totalSlides a) (isTransitioning a) (slides a) (prevBtn a) b
        (currentSlideSpan a) (totalSlidesSpan a) (bookmakerChart a).

Definition set_currentSlideSpan (s : option content) (a : PresentationApp) : PresentationApp :=
  mkApp (currentSlide a) (totalSlides a) (isTransitioning a) (slides a) (prevBtn a)
        (nextBtn a) s (totalSlidesSpan a) (bookmakerChart a).

Definition set_totalSlidesSpan (s : option content) (a : PresentationApp) : PresentationApp :=
  mkApp (currentSlide a) (totalSlides a) (isTransitioning a) (slides a) (prevBtn a)
        (nextBtn a) (currentSlideSpan a) s (bookmakerChart a).

Definition set_bookmakerChart (c : option ChartHandle) (a : PresentationApp) : PresentationApp :=
  mkApp (currentSlide a) (totalSlides a) (isTransitioning a) (slides a) (prevBtn a)
        (nextBtn a) (currentSlideSpan a) (totalSlidesSpan a) c.

Definition on_app (f : PresentationApp -> PresentationApp) (w : World) : World :=
  mkWorld (f (app w)) (timers w) (startX w) (effects w) (nextHandle w).

(** [setTimeout(t, delay)] *)
Definition setTimeout (t : task) (delay : Z) (w : World) : World :=
  mkWorld (app w) (timers w ++ [(delay, t)]) (startX w) (effects w) (nextHandle w).

Definition emit (e : effect) (w : World) : World :=
  mkWorld (app w) (timers w) (startX w) (effects w ++ [e]) (nextHandle w).

Definition set_startX (x : Z) (w : World) : World :=
  mkWorld (app w) (timers w) x (effects w) (nextHandle w).

(** *** The slide list *)

(** The position in the list that the key [i] names, if it names one. *)
Definition slide_position (l : list bool) (i : float) : option nat :=
  match float_integer i with
  | Some z => if z <? Z.of_nat (length l) then Some (Z.to_nat z) else None
  | None => None
  end.

(** [this.slides[i]]: [None] stands for [undefined]. *)
Definition slide_at (l : list bool) (i : float) : option bool :=
  match slide_position l i with
  | Some p => l !! p
  | None => None
  end.

(** [if (this.slides[i]) this.slides[i].classList.add/remove('active')] *)
Definition mark_slide (b : bool) (i : float) (l : list bool) : list bool :=
  match slide_position l i with
  | Some p => <[p := b]> l
  | None => l
  end.

(** Indices of the slides that carry the class ['active']. *)
Fixpoint active_from (i : nat) (l : list bool) : list nat :=
  match l with
  | [] => []
  | b :: l' => if b then i :: active_from (S i) l' else active_from (S i) l'
  end.

Definition active_slides (a : PresentationApp) : list nat := active_from 0 (slides a).

(** ** Slide navigation *)

(** [showCurrentSlide()] *)
Definition showCurrentSlide (a : PresentationApp) : PresentationApp :=
  let hidden := (fun _ => false) <$> slides a in
  set_slides (mark_slide true (ToNumber (currentSlide a) - 1)%float hidden) a.

(** [updateSlideCounter()] *)
Definition updateSlideCounter (a : PresentationApp) : PresentationApp :=
  let a1 := match currentSlideSpan a with
            | Some _ => set_currentSlideSpan (Some (Value (currentSlide a))) a
            | None => a
            end in
  match totalSlidesSpan a1 with
  | Some _ => set_totalSlidesSpan (Some (Value (Num (totalSlides a1)))) a1
  | None => a1
  end.

(** [updateNavigationButtons()] *)
Definition updateNavigationButtons (a : PresentationApp) : PresentationApp :=
  let a1 := match prevBtn a with
            | Some _ =>
                set_prevBtn (Some (mkButton (strict_eq (currentSlide a) 1)
                   (if strict_eq (currentSlide a) 1 then "Start" else "← Previous"))) a
            | None => a
            end in
  match nextBtn a1 with
  | Some _ =>
      set_nextBtn (Some (mkButton (strict_eq (currentSlide a1) (totalSlides a1))
         (if strict_eq (currentSlide a1) (totalSlides a1) then "End" else "Next →"))) a1
  | None => a1
  end.

(** [goToSlide(slideNumber)]: the part that runs before the timer. *)
Definition goToSlide (slideNumber : numeric) (w : World) : World :=
  if (ToNumber slideNumber <? 1)%float
     || (totalSlides (app w) <? ToNumber slideNumber)%float
     || isTransitioning (app w)
  then w
  else
    let w1 := on_app (set_isTransitioning true) w in
    let w2 := on_app (fun a => set_slides
                 (mark_slide false (ToNumber (currentSlide a) - 1)%float (slides a)) a) w1 in
    let w3 := on_app (set_currentSlide slideNumber) w2 in
    setTimeout Settle 50 w3.

(** The callback [goToSlide] hands to [setTimeout] (lines 118-129). *)
Definition settle (w : World) : World :=
  let w1 := on_app showCurrentSlide w in
  let w2 := on_app updateSlideCounter w1 in
  let w3 := on_app updateNavigationButtons w2 in
  let w4 := if strict_eq (currentSlide (app w3)) 8
            then setTimeout InitChart 200 w3 else w3 in
  on_app (set_isTransitioning false) w4.

(** [nextSlide()] *)
Definition nextSlide (w : World) : World :=
  if isTransitioning (app w)
     || (totalSlides (app w) <=? ToNumber (currentSlide (app w)))%float
  then w
  else
    let w1 := emit (ConsoleLog "Moving to next slide:"
                      [(ToNumber (currentSlide (app w)) + 1)%float]) w in
    goToSlide (Num (ToNumber (currentSlide (app w1)) + 1)%float) w1.

(** [previousSlide()] *)
Definition previousSlide (w : World) : World :=
  if isTransitioning (app w) || (ToNumber (currentSlide (app w)) <=? 1)%float
  then w
  else
    let w1 := emit (ConsoleLog "Moving to previous slide:"
                      [(ToNumber (currentSlide (app w)) - 1)%float]) w in
    goToSlide (Num (ToNumber (currentSlide (app w1)) - 1)%float) w1.

(** [setSlide(slideNumber)] *)
Definition setSlide (slideNumber : numeric) (w : World) : World := goToSlide slideNumber w.

(** [getCurrentSlide()] and [getTotalSlides()] *)
Definition getCurrentSlide (w : World) : numeric := currentSlide (app w).
Definition getTotalSlides (w : World) : float := totalSlides (app w).
(** ** The bookmaker chart *)

(** How a call ends: normally with a value, or by an exception that reaches
    the caller.  Either way the world it leaves behind is kept. *)
Inductive completion (A : Type) :=
| Normal (v : A) (w : World)
| Abrupt (w : World).

Arguments Normal {A} v w.
Arguments Abrupt {A} w.

Definition world_of {A : Type} (c : completion A) : World :=
  match c with Normal _ w => w | Abrupt w => w end.

(** [bookmakerData], in the order [Object.keys] enumerates it. *)
Definition bookmakerData : list (string * (float * float)) :=
  [ ("Pinnacle", (0.172, 0.099)); ("Thunderpick", (0.156, 0.116));
    ("Bet365", (0.180, 0.134)); ("Betway", (0.176, 0.147));
    ("888Sport", (0.204, 0.149)); ("Unibet", (0.178, 0.164)) ]%float.

Definition labels : list string := fst <$> bookmakerData.
Definition marginData : list float := (fun r => fst (snd r)) <$> bookmakerData.
Definition varianceData : list float := (fun r => snd (snd r)) <$> bookmakerData.

(** The [data] field of the configuration object. *)
Definition chartData : ChartData :=
  mkChartData labels [ ("Average Margin (%)", marginData);
                       ("Variance (%)", varianceData) ].

(** [new Chart(ctx, config)]: either throws, or yields a fresh handle that is
    live from then on. *)
Definition newChart (env : ChartEnv) (data : ChartData) (w : World)
  : completion ChartHandle :=
  if chartThrows env then Abrupt w
  else
    let h := nextHandle w in
    Normal h (mkWorld (app w) (timers w) (startX w)
                      (effects w ++ [ChartNew h data]) (S h)).

(** [initializeBookmakerChart()].  The element found under the id
    ['bookmaker-chart'] is a canvas, so [getContext('2d')] returns. *)
Definition initializeBookmakerChart (env : ChartEnv) (w : World) : completion unit :=
  if negb (canvasFound env)
  then Normal tt (emit (ConsoleLog "Chart canvas not found" []) w)
  else
    (* Destroy existing chart if it exists *)
    let w1 := match bookmakerChart (app w) with
              | Some h => on_app (set_bookmakerChart None) (emit (ChartDestroy h) w)
              | None => w
              end in
    (* try { this.bookmakerChart = new Chart(...); ... } catch (error) { ... } *)
    match newChart env chartData w1 with
    | Normal h w2 =>
        Normal tt (emit (ConsoleLog "Chart initialized successfully" [])
                        (on_app (set_bookmakerChart (Some h)) w2))
    | Abrupt w2 =>
        Normal tt (emit (ConsoleError "Error creating chart:") w2)
    end.

(** The chart handles that are live after a log of effects: built and not
    destroyed since. *)
Definition live_step (live : list ChartHandle) (e : effect) : list ChartHandle :=
  match e with
  | ChartNew h _ => live ++ [h]
  | ChartDestroy h => filter (fun h' => h' ≠ h) live
  | _ => live
  end.

Definition live_handles (log : list effect) : list ChartHandle :=
  fold_left live_step log [].

(** ** Start-up and the event loop *)

(** [init()], without [setupEventListeners], whose listeners are the
    handlers below. *)
Definition init (w : World) : World :=
  let w1 := on_app updateSlideCounter w in
  let w2 := on_app updateNavigationButtons w1 in
  let w3 := on_app showCurrentSlide w2 in
  if strict_eq (currentSlide (app w3)) 8 then setTimeout InitChart 500 w3 else w3.

(** [new PresentationApp()] on a document. *)
Definition construct (d : Document) : World :=
  init (mkWorld
          (mkApp (Num 1) 12 false (doc_slides d) (doc_prevBtn d) (doc_nextBtn d)
                 (doc_currentSlideSpan d) (doc_totalSlidesSpan d) None)
          [] 0 [] 0%nat).

(** [prevBtn.onclick] and [nextBtn.onclick]; installed only when the button
    exists. *)
Definition prevBtn_onclick (w : World) : World :=
  match prevBtn (app w) with
  | Some _ => previousSlide (emit (ConsoleLog "Previous button clicked" []) w)
  | None => w
  end.

Definition nextBtn_onclick (w : World) : World :=
  match nextBtn (app w) with
  | Some _ => nextSlide (emit (ConsoleLog "Next button clicked" []) w)
  | None => w
  end.

(** The [keydown] listener. *)
Definition on_keydown (key : string) (w : World) : World :=
  if isTransitioning (app w) then w
  else if String.eqb key "ArrowLeft" then previousSlide (emit PreventDefault w)
  else if String.eqb key "ArrowRight" then nextSlide (emit PreventDefault w)
  else w.

(** The [touchstart] and [touchend] listeners; the argument is [clientX]. *)
Definition on_touchstart (x : Z) (w : World) : World := set_startX x w.

Definition on_touchend (endX : Z) (w : World) : World :=
  if isTransitioning (app w) then w
  else
    let diff := startX w - endX in
    let swipeThreshold := 50 in
    if Z.abs diff >? swipeThreshold
    then if diff >? 0 then nextSlide w else previousSlide w
    else w.

(** What can happen to a running page: user input, calls of the public
    methods, and a pending timer coming due. *)
Inductive event :=
| ClickPrev
| ClickNext
| KeyDown (key : string)
| TouchStart (x : Z)
| TouchEnd (x : Z)
| CallNextSlide
| CallPreviousSlide
| CallGoToSlide (n : numeric)
| CallSetSlide (n : numeric)
| CallInitChart (env : ChartEnv)
| Fire (i : nat) (env : ChartEnv).

Definition run_task (t : task) (env : ChartEnv) (w : World) : World :=
  match t with
  | Settle => settle w
  | InitChart => world_of (initializeBookmakerChart env w)
  end.

(** The [i]-th pending timer comes due: it leaves the queue and its callback
    runs. *)
Definition fire (i : nat) (env : ChartEnv) (w : World) : World :=
  match timers w !! i with
  | Some (_, t) =>
      run_task t env (mkWorld (app w) (delete i (timers w)) (startX w)
                              (effects w) (nextHandle w))
  | None => w
  end.

Definition step (w : World) (e : event) : World :=
  match e with
  | ClickPrev => prevBtn_onclick w
  | ClickNext => nextBtn_onclick w
  | KeyDown key => on_keydown key w
  | TouchStart x => on_touchstart x w
  | TouchEnd x => on_touchend x w
  | CallNextSlide => nextSlide w
  | CallPreviousSlide => previousSlide w
  | CallGoToSlide n => goToSlide n w
  | CallSetSlide n => setSlide n w
  | CallInitChart env => world_of (initializeBookmakerChart env w)
  | Fire i env => fire i env w
  end.

Definition run (w : World) (es : list event) : World := fold_left step es w.

(** ** [Number.prototype.toFixed] on binary64 values

    A finite nonzero double is [(-1)^s * m * 2^e]; [Prim2SF] exposes [s], [m]
    and [e], and the digits are computed on the exact value, as ECMAScript
    prescribes. *)

Definition decimal (n : Z) : string := pretty n.

(** ["0"] repeated [n] times. *)
Fixpoint zeros (n : nat) : string :=
  match n with
  | O => ""
  | S n' => String "0"%char (zeros n')
  end.

(** Steps 10-11 of [toFixed]: the integer [n] printed with [f] digits after
    the point. *)
Definition fixed_notation (n : Z) (f : nat) : string :=
  let m := decimal n in
  if Nat.eqb f 0 then m
  else
    let k := String.length m in
    let m' := if (k <=? f)%nat then zeros (f + 1 - k) +:+ m else m in
    let k' := if (k <=? f)%nat then (f + 1)%nat else k in
    String.substring 0 (k' - f) m' +:+ "." +:+ String.substring (k' - f) f m'.

(** The integer [n] for which [n / 10^f - m * 2^e] is closest to zero, the
    larger one on a tie: [floor (m * 2^e * 10^f + 1/2)]. *)
Definition nearest_scaled (m : positive) (e : Z) (f : nat) : Z :=
  let num := Z.pos m * 10 ^ Z.of_nat f in
  if e <? 0 then (2 * num + 2 ^ (- e)) / (2 * 2 ^ (- e)) else num * 2 ^ e.

(** [Number::toString] for values of at least [10^21], which are integers:
    the shortest decimal that reads back as the same double (the nearest one
    when several do), in exponent notation. *)
Definition to_binary64 (v : Z) : spec_float := binary_normalize prec emax v 0 false.

Definition rounds_to (x : spec_float) (v : Z) : bool := SFeqb (to_binary64 v) x.

(** A [k]-digit decimal that reads back as [x], whose exact value is the
    [d]-digit integer [X], if there is one. *)
Definition candidate (x : spec_float) (X d k : Z) : option Z :=
  let p := 10 ^ (d - k) in
  let lo := (X / p) * p in
  let hi := lo + p in
  match rounds_to x lo, rounds_to x hi with
  | true, true =>
      if X - lo <? hi - X then Some lo
      else if hi - X <? X - lo then Some hi
      else if Z.even (lo / p) then Some lo else Some hi
  | true, false => Some lo
  | false, true => Some hi
  | false, false => None
  end.

Fixpoint shortest (fuel : nat) (x : spec_float) (X d k : Z) : Z :=
  match fuel with
  | O => X
  | S fuel' =>
      match candidate x X d k with
      | Some v => v
      | None => shortest fuel' x X d (k + 1)
      end
  end.

Fixpoint strip_zeros (fuel : nat) (v : Z) : Z :=
  match fuel with
  | O => v
  | S fuel' =>
      if (v mod 10 =? 0) && negb (v =? 0) then strip_zeros fuel' (v / 10) else v
  end.

Definition exponent_notation (v : Z) : string :=
  let n := Z.of_nat (String.length (decimal v)) in
  let s := decimal (strip_zeros (Z.to_nat n) v) in
  let e := decimal (n - 1) in
  match s with
  | EmptyString => s
  | String c EmptyString => String c "" +:+ "e+" +:+ e
  | String c rest => String c "" +:+ "." +:+ rest +:+ "e+" +:+ e
  end.

(** [x.toFixed(f)] *)
Definition toFixed (x : float) (f : nat) : string :=
  match Prim2SF x with
  | S754_nan => "NaN"
  | S754_infinity s => if s then "-Infinity" else "Infinity"
  | S754_zero _ => fixed_notation 0 f
  | S754_finite s m e =>
      let sign : string := if s then "-" else "" in
      let X := Z.shiftl (Z.pos m) e in
      if 10 ^ 21 <=? X
      then sign +:+ exponent_notation
                      (shortest 17 (S754_finite false m e) X
                                (Z.of_nat (String.length (decimal X))) 1)
      else sign +:+ fixed_notation (nearest_scaled m e f) f
  end.

(** ** Utility functions *)

(** The values [calculateArbitrageProfit] can return. *)
Inductive jsval :=
| JNumber (x : float)
| JString (s : string).

Module DataUtils.

(** [calculateArbitrageProfit(odds1, odds2)] *)
Definition calculateArbitrageProfit (odds1 odds2 : float) : jsval :=
  let impliedProb1 := (1 / odds1)%float in
  let impliedProb2 := (1 / odds2)%float in
  let totalImpliedProb := (impliedProb1 + impliedProb2)%float in
  if (totalImpliedProb <? 1)%float then
    let profit := (((1 - totalImpliedProb) / totalImpliedProb) * 100)%float in
    JString (toFixed profit 2)
  else JNumber 0.

End DataUtils.

(** The sum of implied probabilities the function compares with [1]. *)
Definition totalImpliedProb (odds1 odds2 : float) : float :=
  (1 / odds1 + 1 / odds2)%float.

(** The profit percentage before formatting. *)
Definition profit_of (odds1 odds2 : float) : float :=
  let t := totalImpliedProb odds1 odds2 in (((1 - t) / t) * 100)%float.

Definition is_nonzero_digit (c : Ascii.ascii) : bool :=
  let n := Ascii.nat_of_ascii c in (49 <=? n)%nat && (n <=? 57)%nat.

Fixpoint has_nonzero_digit (s : string) : bool :=
  match s with
  | EmptyString => false
  | String c s' => is_nonzero_digit c || has_nonzero_digit s'
  end.

Definition starts_with_minus (s : string) : bool :=
  match s with
  | String c _ => Ascii.eqb c "-"
  | EmptyString => false
  end.

(** Whether a returned value, read as a number, is greater than zero.  For a
    string produced by [toFixed] that is: no minus sign, and either
    ["Infinity"] or a numeral with a digit other than [0]. *)
Definition is_positive (v : jsval) : bool :=
  match v with
  | JNumber x => (0 <? x)%float
  | JString s =>
      negb (starts_with_minus s) && (String.eqb s "Infinity" || has_nonzero_digit s)
  end.

(** The behaviour claimed for a pair of odds: [0] when the implied
    probabilities sum to at least [1], a positive profit otherwise. *)
Definition zero_or_positive (odds1 odds2 : float) : Prop :=
  ((1 <=? totalImpliedProb odds1 odds2)%float = true ->
   DataUtils.calculateArbitrageProfit odds1 odds2 = JNumber 0) /\
  ((1 <=? totalImpliedProb odds1 odds2)%float = false ->
   is_positive (DataUtils.calculateArbitrageProfit odds1 odds2) = true).

(** ** Concrete pages used as examples *)

(** Twelve slides, the first marked active in the markup, with both buttons
    and both counter spans. *)
Definition demo_document : Document :=
  mkDocument (true :: replicate 11 false)
             (Some (mkButton false "← Previous")) (Some (mkButton false "Next →"))
             (Some (Text "1")) (Some (Text "12")).

Definition demo_world : World := construct demo_document.

(** The page answers: canvas present and [new Chart] succeeds, or throws. *)
Definition chart_ok : ChartEnv := mkChartEnv true false.
Definition chart_fails : ChartEnv := mkChartEnv true true.

(** The demo page in the middle of the transition from slide 1 to slide 2,
    settled on the last slide, and settled on the trigger slide. *)
Definition demo_in_transition : World := goToSlide (Num 2) demo_world.
Definition demo_last : World := run demo_world [CallGoToSlide (Num 12); Fire 0 chart_ok].
Definition demo_trigger : World := run demo_world [CallGoToSlide (Num 8); Fire 0 chart_ok].

(** The demo page after one successful render, and two renders in a row. *)
Definition demo_with_chart : World := run demo_world [CallInitChart chart_ok].
Definition two_renders : list event := [CallInitChart chart_ok; CallInitChart chart_ok].

(** Events whose [goToSlide] and [setSlide] targets all satisfy [ok]. *)
Definition target_ok (ok : numeric -> bool) (e : event) : bool :=
  match e with
  | CallGoToSlide n | CallSetSlide n => ok n
  | _ => true
  end.

Definition targets_ok (ok : numeric -> bool) (es : list event) : bool :=
  forallb (target_ok ok) es.

(** ** Invariants *)

(** [currentSlide] is a number between [1] and [totalSlides]. *)
Definition in_range (a : PresentationApp) : bool :=
  match currentSlide a with
  | Num x => (1 <=? x)%float && (x <=? totalSlides a)%float
  | Undefined => false
  end.

Definition nav_ok (a : PresentationApp) : Prop :=
  in_range a = true /\ totalSlides a = 12%float.

(** The numbers of the twelve slides. *)
Definition slide_numbers : list float := [1; 2; 3; 4; 5; 6; 7; 8; 9; 10; 11; 12]%float.

(** [currentSlide] is the number of one of the twelve slides. *)
Definition on_a_slide (a : PresentationApp) : Prop :=
  (exists x, currentSlide a = Num x /\ In x slide_numbers) /\ totalSlides a = 12%float.

(** The slide numbered [currentSlide] is the only active one: it sits at
    position [currentSlide - 1] of the list. *)
Definition only_current_active (a : PresentationApp) : Prop :=
  exists p : nat,
    float_integer (ToNumber (currentSlide a) - 1)%float = Some (Z.of_nat p) /\
    active_slides a = [p].

(** In a settled state the slide at [currentSlide] is the only active one. *)
Definition settled_ok (a : PresentationApp) : Prop :=
  isTransitioning a = false -> only_current_active a.

(** Whether a list of slides has at least [total] entries. *)
Definition enough_slides (total : float) (l : list bool) : bool :=
  match float_integer total with
  | Some n => n <=? Z.of_nat (length l)
  | None => false
  end.

(** Every slide number has a slide. *)
Definition deck_ok (a : PresentationApp) : Prop :=
  enough_slides (totalSlides a) (slides a) = true.

(** Replaying a log from the handles [live], there are never two live handles. *)
Fixpoint never_two_live (live : list ChartHandle) (log : list effect) : Prop :=
  (length live <= 1)%nat /\
  match log with
  | [] => True
  | e :: log' => never_two_live (live_step live e) log'
  end.

(** The live handles are exactly the one the instance refers to, if any. *)
Definition chart_owned (w : World) : Prop :=
  live_handles (effects w) = option_list (bookmakerChart (app w)).

(** The chart invariant: the log never shows two live handles, and what is
    live at its end is what [bookmakerChart] refers to. *)
Definition chart_inv (w : World) : Prop :=
  never_two_live [] (effects w) /\ chart_owned w.

(** What start-up and every settle do to the instance: show the current
    slide, refresh the counter and the buttons, and end the transition. *)
Definition refresh (a : PresentationApp) : PresentationApp :=
  set_isTransitioning false
    (updateNavigationButtons (updateSlideCounter (showCurrentSlide a))).

(** What [goToSlide] leaves behind when its guard lets the call through. *)
Definition transition_started (slideNumber : numeric) (w : World) : World :=
  mkWorld
    (mkApp slideNumber (totalSlides (app w)) true
           (mark_slide false (ToNumber (currentSlide (app w)) - 1)%float (slides (app w)))
           (prevBtn (app w)) (nextBtn (app w)) (currentSlideSpan (app w))
           (totalSlidesSpan (app w)) (bookmakerChart (app w)))
    (timers w ++ [(50, Settle)]) (startX w) (effects w) (nextHandle w).

(** * Properties *)

(** ** Comparisons and arithmetic of doubles *)

Lemma SFcompare_antisym x y :
  SFcompare y x = option_map CompOpp (SFcompare x y).
Proof.
  destruct x as [sx|sx| |sx mx ex], y as [sy|sy| |sy my ey]; simpl;
    try reflexivity; try (destruct sx; reflexivity); try (destruct sy; reflexivity);
    try (destruct sx, sy; reflexivity).
  destruct sx, sy; simpl; try reflexivity;
    rewrite (Z.compare_antisym ex ey);
    destruct (ex ?= ey); simpl; try reflexivity;
    fold (Pos.compare my mx); fold (Pos.compare mx my);
    rewrite (Pos.compare_antisym mx my); reflexivity.
Qed.

(** On doubles, [x <= y] excludes [y < x]. *)
Lemma leb_excludes_ltb (x y : float) :
  (x <=? y)%float = true -> (y <? x)%float = false.
Proof.
  rewrite leb_spec, ltb_spec. unfold SFleb, SFltb.
  rewrite (SFcompare_antisym (Prim2SF x) (Prim2SF y)).
  destruct (SFcompare (Prim2SF x) (Prim2SF y)) as [[| |]|]; simpl; congruence.
Qed.

Lemma SFcompare_total x y :
  x <> S754_nan -> y <> S754_nan -> SFcompare x y <> None.
Proof.
  destruct x as [sx|sx| |sx mx ex], y as [sy|sy| |sy my ey]; simpl; congruence.
Qed.

(** Two doubles that are not [NaN] are comparable. *)
Lemma not_ltb_leb (x y : float) :
  Prim2SF x <> S754_nan -> Prim2SF y <> S754_nan ->
  (x <? y)%float = false -> (y <=? x)%float = true.
Proof.
  intros Hx Hy. rewrite leb_spec, ltb_spec. unfold SFleb, SFltb.
  rewrite (SFcompare_antisym (Prim2SF x) (Prim2SF y)).
  pose proof (SFcompare_total _ _ Hx Hy) as Ht.
  destruct (SFcompare (Prim2SF x) (Prim2SF y)) as [[| |]|]; simpl; congruence.
Qed.

Lemma leb_not_nan (x y : float) :
  (x <=? y)%float = true -> Prim2SF x <> S754_nan /\ Prim2SF y <> S754_nan.
Proof.
  rewrite leb_spec. unfold SFleb.
  destruct (Prim2SF x) as [sx|sx| |sx mx ex], (Prim2SF y) as [sy|sy| |sy my ey];
    simpl; intros H; split; congruence.
Qed.

Lemma eqb_leb (x y : float) :
  (x =? y)%float = true -> (x <=? y)%float = true /\ (y <=? x)%float = true.
Proof.
  rewrite FloatAxioms.eqb_spec, !leb_spec. unfold SFeqb, SFleb.
  rewrite (SFcompare_antisym (Prim2SF x) (Prim2SF y)).
  destruct (SFcompare (Prim2SF x) (Prim2SF y)) as [[| |]|]; simpl; auto; discriminate.
Qed.

Lemma is_nan_Prim2SF (x : float) : is_nan x = false -> Prim2SF x <> S754_nan.
Proof.
  unfold is_nan. rewrite FloatAxioms.eqb_spec. intros H E. rewrite E in H. discriminate.
Qed.

(** Rounding never produces [NaN]. *)
Lemma shr_1_nonneg mrs : 0 <= shr_m mrs -> 0 <= shr_m (shr_1 mrs).
Proof.
  destruct mrs as [m r s]. simpl.
  destruct m as [|p|p]; [simpl; lia | | lia].
  intros _. destruct p; simpl; lia.
Qed.

Lemma iter_shr_1_nonneg p : forall mrs,
  0 <= shr_m mrs -> 0 <= shr_m (SpecFloat.iter_pos shr_1 p mrs).
Proof.
  induction p as [p IH|p IH|]; intros mrs H; simpl.
  - apply IH, IH, shr_1_nonneg, H.
  - apply IH, IH, H.
  - apply shr_1_nonneg, H.
Qed.

Lemma shr_fexp_nonneg m e l :
  0 <= m -> 0 <= shr_m (fst (shr_fexp prec emax m e l)).
Proof.
  intros Hm. unfold shr_fexp, shr.
  assert (H0 : 0 <= shr_m (shr_record_of_loc m l))
    by (destruct l as [|[| |]]; simpl; exact Hm).
  destruct (fexp prec emax (Zdigits2 m + e) - e) as [|p|p]; simpl;
    [exact H0 | apply iter_shr_1_nonneg, H0 | exact H0].
Qed.

Lemma round_nearest_even_nonneg m l : 0 <= m -> 0 <= round_nearest_even m l.
Proof.
  intros H. destruct l as [|[| |]]; simpl; try lia.
  destruct (Z.even m); lia.
Qed.

Lemma binary_round_aux_not_nan s m e l :
  0 <= m -> binary_round_aux prec emax s m e l <> S754_nan.
Proof.
  intros Hm. unfold binary_round_aux.
  pose proof (shr_fexp_nonneg m e l Hm) as H1.
  destruct (shr_fexp prec emax m e l) as [mrs' e'] eqn:E1. simpl in H1.
  pose proof (shr_fexp_nonneg
                (round_nearest_even (shr_m mrs') (loc_of_shr_record mrs')) e' loc_Exact
                (round_nearest_even_nonneg _ _ H1)) as H2.
  destruct (shr_fexp prec emax _ e' loc_Exact) as [mrs'' e''] eqn:E2. simpl in H2.
  destruct (shr_m mrs'') as [|p|p]; [discriminate | | lia].
  destruct (e'' <=? emax - prec); discriminate.
Qed.

Lemma binary_normalize_not_nan m e sz : binary_normalize prec emax m e sz <> S754_nan.
Proof.
  unfold binary_normalize, binary_round.
  destruct m as [|p|p]; [discriminate | |];
    destruct (shl_align p e _) as [mz ez];
    apply binary_round_aux_not_nan; lia.
Qed.

(** Adding or subtracting two finite doubles never gives [NaN]. *)
Lemma finite_add_not_nan (x y : float) s m e s' m' e' :
  Prim2SF x = S754_finite s m e -> Prim2SF y = S754_finite s' m' e' ->
  Prim2SF (x + y)%float <> S754_nan /\ Prim2SF (x - y)%float <> S754_nan.
Proof.
  intros Hx Hy. rewrite add_spec, sub_spec, Hx, Hy. unfold SF64add, SF64sub.
  split; apply binary_normalize_not_nan.
Qed.

(** A double between [1] and another double is finite and positive. *)
Lemma bounded_is_finite (x t : float) :
  (1 <=? x)%float = true -> (x <=? t)%float = true ->
  Prim2SF t <> S754_infinity false ->
  exists m e, Prim2SF x = S754_finite false m e.
Proof.
  rewrite !leb_spec.
  replace (Prim2SF 1) with (S754_finite false 4503599627370496 (-52))
    by (vm_compute; reflexivity).
  unfold SFleb. intros H1 H2 Ht.
  destruct (Prim2SF x) as [s|s| |s m e]; try discriminate.
  - destruct s; [discriminate|].
    destruct (Prim2SF t) as [s'|s'| |s' m' e']; try discriminate.
    destruct s'; [discriminate | congruence].
  - destruct s; [discriminate | eauto].
Qed.

(** One step up or down from a slide number in range is not [NaN]. *)
Lemma step_from_range_not_nan (x : float) :
  (1 <=? x)%float = true -> (x <=? 12)%float = true ->
  Prim2SF (x + 1)%float <> S754_nan /\ Prim2SF (x - 1)%float <> S754_nan.
Proof.
  intros H1 H2.
  destruct (bounded_is_finite x 12 H1 H2) as (m & e & E);
    [vm_compute; discriminate|].
  apply (finite_add_not_nan x 1 false m e false 4503599627370496 (-52) E).
  vm_compute. reflexivity.
Qed.

(** ** Basic facts about the operations *)

Lemma goToSlide_blocked n w :
  (ToNumber n <? 1)%float = true \/
  (totalSlides (app w) <? ToNumber n)%float = true \/
  isTransitioning (app w) = true ->
  goToSlide n w = w.
Proof.
  intros H. unfold goToSlide.
  destruct (ToNumber n <? 1)%float; [reflexivity|].
  destruct (totalSlides (app w) <? ToNumber n)%float; [reflexivity|].
  destruct (isTransitioning (app w)); [reflexivity|].
  destruct H as [H | [H | H]]; discriminate.
Qed.

Lemma goToSlide_started n w :
  (ToNumber n <? 1)%float = false ->
  (totalSlides (app w) <? ToNumber n)%float = false ->
  isTransitioning (app w) = false ->
  goToSlide n w = transition_started n w.
Proof. intros H1 H2 H3. unfold goToSlide. rewrite H1, H2, H3. reflexivity. Qed.

Lemma goToSlide_cases n w :
  goToSlide n w = w \/
  ((ToNumber n <? 1)%float = false /\
   (totalSlides (app w) <? ToNumber n)%float = false /\
   isTransitioning (app w) = false /\
   goToSlide n w = transition_started n w).
Proof.
  destruct (ToNumber n <? 1)%float eqn:H1;
    [left; apply goToSlide_blocked; auto|].
  destruct (totalSlides (app w) <? ToNumber n)%float eqn:H2;
    [left; apply goToSlide_blocked; auto|].
  destruct (isTransitioning (app w)) eqn:H3;
    [left; apply goToSlide_blocked; auto|].
  right. repeat split. apply goToSlide_started; assumption.
Qed.

(** A target in range passes the guard. *)
Lemma in_range_passes (x t : float) :
  (1 <=? x)%float = true -> (x <=? t)%float = true ->
  (x <? 1)%float = false /\ (t <? x)%float = false.
Proof. intros H1 H2. split; apply leb_excludes_ltb; assumption. Qed.

(** A number that passes the guard is in range. *)
Lemma passes_in_range (x t : float) :
  Prim2SF x <> S754_nan -> Prim2SF t <> S754_nan ->
  (x <? 1)%float = false -> (t <? x)%float = false ->
  (1 <=? x)%float = true /\ (x <=? t)%float = true.
Proof.
  intros Hx Ht H1 H2. split.
  - apply not_ltb_leb; [assumption | vm_compute; discriminate | assumption].
  - apply not_ltb_leb; assumption.
Qed.

Lemma nextSlide_cases w :
  nextSlide w = w \/
  ((totalSlides (app w) <=? ToNumber (currentSlide (app w)))%float = false /\
   isTransitioning (app w) = false /\
   nextSlide w =
     goToSlide (Num (ToNumber (currentSlide (app w)) + 1)%float)
       (emit (ConsoleLog "Moving to next slide:"
                [(ToNumber (currentSlide (app w)) + 1)%float]) w)).
Proof.
  unfold nextSlide.
  destruct (isTransitioning (app w)) eqn:Ht; [left; reflexivity|].
  destruct (totalSlides (app w) <=? ToNumber (currentSlide (app w)))%float eqn:E;
    [left; reflexivity|].
  right. repeat split.
Qed.

Lemma previousSlide_cases w :
  previousSlide w = w \/
  ((ToNumber (currentSlide (app w)) <=? 1)%float = false /\
   isTransitioning (app w) = false /\
   previousSlide w =
     goToSlide (Num (ToNumber (currentSlide (app w)) - 1)%float)
       (emit (ConsoleLog "Moving to previous slide:"
                [(ToNumber (currentSlide (app w)) - 1)%float]) w)).
Proof.
  unfold previousSlide.
  destruct (isTransitioning (app w)) eqn:Ht; [left; reflexivity|].
  destruct (ToNumber (currentSlide (app w)) <=? 1)%float eqn:E; [left; reflexivity|].
  right. repeat split.
Qed.

(** *** Invariants of the event loop

    A property of worlds that the primitive operations preserve is preserved
    by every event, hence holds after every run.  The targets that callers
    pass to [goToSlide] and [setSlide] may be restricted by [ok]. *)
Section Preservation.

Variable P : World -> Prop.
Variable ok : numeric -> bool.

Hypothesis P_log : forall msg args w, P w -> P (emit (ConsoleLog msg args) w).
Hypothesis P_preventDefault : forall w, P w -> P (emit PreventDefault w).
Hypothesis P_startX : forall x w, P w -> P (set_startX x w).
Hypothesis P_dequeue : forall i w,
  P w -> P (mkWorld (app w) (delete i (timers w)) (startX w) (effects w) (nextHandle w)).
Hypothesis P_goToSlide : forall n w, ok n = true -> P w -> P (goToSlide n w).
Hypothesis P_nextSlide : forall w, P w -> P (nextSlide w).
Hypothesis P_previousSlide : forall w, P w -> P (previousSlide w).
Hypothesis P_settle : forall w, P w -> P (settle w).
Hypothesis P_chart : forall env w,
  P w -> P (world_of (initializeBookmakerChart env w)).

Lemma preserved_step w e : target_ok ok e = true -> P w -> P (step w e).
Proof using All.
  intros Hok H. destruct e; simpl in *.
  - unfold prevBtn_onclick. destruct (prevBtn (app w)); auto.
  - unfold nextBtn_onclick. destruct (nextBtn (app w)); auto.
  - unfold on_keydown. destruct (isTransitioning (app w)); [assumption|].
    destruct (String.eqb key "ArrowLeft"); [auto|].
    destruct (String.eqb key "ArrowRight"); auto.
  - apply P_startX, H.
  - unfold on_touchend. destruct (isTransitioning (app w)); [assumption|].
    destruct (Z.abs (startX w - x) >? 50); [|assumption].
    destruct (startX w - x >? 0); auto.
  - apply P_nextSlide, H.
  - apply P_previousSlide, H.
  - apply P_goToSlide; assumption.
  - apply P_goToSlide; assumption.
  - apply P_chart, H.
  - unfold fire. destruct (timers w !! i) as [[d t]|]; [|assumption].
    destruct t; simpl; auto.
Qed.

Lemma preserved_run es : forall w, targets_ok ok es = true -> P w -> P (run w es).
Proof using All.
  induction es as [|e es IH]; intros w Hok H; simpl; [assumption|].
  simpl in Hok. apply andb_prop in Hok as [He Hes].
  apply IH; [assumption|]. apply preserved_step; assumption.
Qed.

End Preservation.

(** Every target satisfies the trivial restriction. *)
Lemma targets_ok_any es : targets_ok (fun _ => true) es = true.
Proof.
  induction es as [|e es IH]; simpl; [reflexivity|].
  rewrite IH. destruct e; reflexivity.
Qed.

(** *** What the settle and the chart render change *)

Lemma refresh_fields a :
  currentSlide (refresh a) = currentSlide a /\
  totalSlides (refresh a) = totalSlides a /\
  isTransitioning (refresh a) = false /\
  slides (refresh a) =
    mark_slide true (ToNumber (currentSlide a) - 1)%float ((fun _ => false) <$> slides a) /\
  bookmakerChart (refresh a) = bookmakerChart a.
Proof. destruct a as [c t tr sl [pb|] [nb|] [cs|] [ts|] bc]; repeat split. Qed.

Lemma refresh_display a :
  prevBtn (refresh a) =
    (fun _ => mkButton (strict_eq (currentSlide a) 1)
                (if strict_eq (currentSlide a) 1 then "Start" else "← Previous"))
      <$> prevBtn a /\
  nextBtn (refresh a) =
    (fun _ => mkButton (strict_eq (currentSlide a) (totalSlides a))
                (if strict_eq (currentSlide a) (totalSlides a) then "End" else "Next →"))
      <$> nextBtn a /\
  currentSlideSpan (refresh a) = (fun _ => Value (currentSlide a)) <$> currentSlideSpan a /\
  totalSlidesSpan (refresh a) = (fun _ => Value (Num (totalSlides a))) <$> totalSlidesSpan a.
Proof. destruct a as [c t tr sl [pb|] [nb|] [cs|] [ts|] bc]; repeat split. Qed.

Lemma settle_refresh w : app (settle w) = refresh (app w).
Proof.
  unfold settle, refresh.
  match goal with |- context [if ?c then _ else _] => destruct c end; reflexivity.
Qed.

Lemma settle_outside w :
  effects (settle w) = effects w /\
  startX (settle w) = startX w /\
  nextHandle (settle w) = nextHandle w /\
  timers (settle w) =
    timers w ++ (if strict_eq (currentSlide (app w)) 8 then [(200, InitChart)] else []).
Proof.
  unfold settle.
  assert (E1 : currentSlide
                 (updateNavigationButtons (updateSlideCounter (showCurrentSlide (app w))))
               = currentSlide (app w))
    by (destruct (app w) as [c t tr sl [pb|] [nb|] [cs|] [ts|] bc]; reflexivity).
  simpl. rewrite E1.
  destruct (strict_eq (currentSlide (app w)) 8); simpl; rewrite ?app_nil_r;
    repeat split.
Qed.

Lemma settle_eq w :
  settle w =
  mkWorld (refresh (app w))
          (timers w ++
             (if strict_eq (currentSlide (app w)) 8 then [(200, InitChart)] else []))
          (startX w) (effects w) (nextHandle w).
Proof.
  destruct w as [[c t tr sl [pb|] [nb|] [cs|] [ts|] bc] tm sx ef nh];
    unfold settle; simpl; destruct (strict_eq c 8); simpl; rewrite ?app_nil_r;
    reflexivity.
Qed.

Lemma construct_refresh d :
  app (construct d) =
  refresh (mkApp (Num 1) 12 false (doc_slides d) (doc_prevBtn d) (doc_nextBtn d)
                 (doc_currentSlideSpan d) (doc_totalSlidesSpan d) None) /\
  timers (construct d) = [] /\ effects (construct d) = [].
Proof. destruct d as [sl [p|] [n|] [c|] [t|]]; repeat split. Qed.

(** [initializeBookmakerChart] always returns normally, and touches nothing
    of the instance but [bookmakerChart]. *)
Lemma initializeBookmakerChart_normal env w :
  initializeBookmakerChart env w = Normal tt (world_of (initializeBookmakerChart env w)).
Proof.
  unfold initializeBookmakerChart, newChart.
  destruct (canvasFound env); simpl; [|reflexivity].
  destruct (chartThrows env); reflexivity.
Qed.

Lemma initializeBookmakerChart_app env w :
  exists c, app (world_of (initializeBookmakerChart env w))
            = set_bookmakerChart c (app w).
Proof.
  destruct w as [[cu t tr sl pb nb cs ts bc] tm sx ef nh].
  unfold initializeBookmakerChart, newChart.
  destruct (canvasFound env), (chartThrows env), bc; simpl;
    eexists; unfold set_bookmakerChart; simpl; reflexivity.
Qed.

Lemma initializeBookmakerChart_timers env w :
  timers (world_of (initializeBookmakerChart env w)) = timers w.
Proof.
  unfold initializeBookmakerChart, newChart.
  destruct (canvasFound env); simpl; [|reflexivity].
  destruct (chartThrows env), (bookmakerChart (app w)); reflexivity.
Qed.

(** *** The model on the demo page *)

(** From slide 1, [nextSlide] and the settle that follows lead to slide 2,
    with both buttons enabled and the counter refreshed. *)
Example advance_then_settle :
  let w := run demo_world [CallNextSlide; Fire 0 chart_ok] in
  currentSlide (app w) = Num 2 /\ isTransitioning (app w) = false /\
  slides (app w) = false :: true :: replicate 10 false /\
  prevBtn (app w) = Some (mkButton false "← Previous") /\
  nextBtn (app w) = Some (mkButton false "Next →") /\
  currentSlideSpan (app w) = Some (Value (Num 2)) /\ timers w = [].
Proof. vm_compute. repeat split. Qed.

(** [goToSlide(12)] ends on the last slide with the next button disabled and
    labelled ["End"]. *)
Example jump_to_last_slide :
  nextBtn (app demo_last) = Some (mkButton true "End") /\
  currentSlide (app demo_last) = Num 12.
Proof. vm_compute. repeat split. Qed.

(** [goToSlide(8)], its settle and the chart timer build one chart from the
    six bookmakers, with two series of six values. *)
Example jump_to_trigger_renders_chart :
  let w := run demo_trigger [Fire 0 chart_ok] in
  bookmakerChart (app w) = Some 0%nat /\
  live_handles (effects w) = [0%nat] /\
  length (data_labels chartData) = 6%nat /\
  (length <$> (snd <$> data_datasets chartData)) = [6%nat; 6%nat].
Proof. vm_compute. repeat split. Qed.

(** ** The slide number and its range *)

Lemma nav_ok_number a :
  nav_ok a ->
  exists x, currentSlide a = Num x /\
            (1 <=? x)%float = true /\ (x <=? 12)%float = true.
Proof.
  intros [Hr Ht]. unfold in_range in Hr. rewrite Ht in Hr.
  destruct (currentSlide a) as [x|]; [|discriminate].
  apply andb_prop in Hr as [H1 H2]. eauto.
Qed.

Lemma nav_ok_goToSlide n w :
  Prim2SF (ToNumber n) <> S754_nan -> (exists x, n = Num x) ->
  nav_ok (app w) -> nav_ok (app (goToSlide n w)).
Proof.
  intros Hn [x ->] H.
  destruct (goToSlide_cases (Num x) w) as [E | (H1 & H2 & _ & E)]; rewrite E;
    [assumption|].
  destruct H as [_ Ht]. simpl in *. rewrite Ht in H2.
  destruct (passes_in_range x 12 Hn ltac:(vm_compute; discriminate) H1 H2) as [G1 G2].
  split; [|exact Ht]. unfold in_range. simpl. rewrite Ht, G1, G2. reflexivity.
Qed.

Lemma nav_ok_run d es :
  targets_ok is_number es = true -> nav_ok (app (run (construct d) es)).
Proof.
  intros Hok.
  apply (preserved_run (fun w => nav_ok (app w)) is_number);
    try (intros; assumption).
  - intros [x|] w Hn; [|discriminate]. apply nav_ok_goToSlide; [|eauto].
    apply is_nan_Prim2SF. simpl in *. destruct (is_nan x); [discriminate | reflexivity].
  - intros w H. destruct (nextSlide_cases w) as [E | (_ & _ & E)]; rewrite E;
      [assumption|].
    destruct (nav_ok_number _ H) as (x & Ex & H1 & H2).
    apply nav_ok_goToSlide; [|eauto|exact H].
    rewrite Ex. simpl. apply (step_from_range_not_nan x H1 H2).
  - intros w H. destruct (previousSlide_cases w) as [E | (_ & _ & E)]; rewrite E;
      [assumption|].
    destruct (nav_ok_number _ H) as (x & Ex & H1 & H2).
    apply nav_ok_goToSlide; [|eauto|exact H].
    rewrite Ex. simpl. apply (step_from_range_not_nan x H1 H2).
  - intros w [Hr Ht]. rewrite settle_refresh.
    destruct (refresh_fields (app w)) as (E1 & E2 & _).
    unfold nav_ok, in_range. rewrite E1, E2. split; assumption.
  - intros env w H. destruct (initializeBookmakerChart_app env w) as [c ->]. exact H.
  - destruct (construct_refresh d) as (-> & _).
    match goal with |- nav_ok (refresh ?a) =>
      destruct (refresh_fields a) as (E1 & E2 & _)
    end.
    unfold nav_ok, in_range. rewrite E1, E2. split; reflexivity.
Qed.

(** C1, counterexample.  [goToSlide(NaN)] passes the guard, since [NaN < 1]
    and [NaN > 12] are both false, and stores [NaN]; so does a call that
    leaves the argument out.  Afterwards [currentSlide] is not in
    [1 .. totalSlides]. *)
Lemma nan_target_leaves_range :
  in_range (app (run (construct demo_document) [CallGoToSlide (Num nan)])) = false /\
  in_range (app (run (construct demo_document) [CallSetSlide Undefined])) = false.
Proof. split; vm_compute; reflexivity. Qed.

(** C1, amended.  For every sequence of events on a freshly constructed app
    (calls of [nextSlide], [previousSlide], [goToSlide] and [setSlide], user
    input, and timers coming due) in which every target handed to
    [goToSlide] or [setSlide] is a number other than [NaN], [currentSlide] is
    a number in [1 .. totalSlides], and [totalSlides] is still [12].  Every
    prefix of such a sequence is such a sequence, so this holds at all
    times. *)
Theorem currentSlide_stays_in_range (d : Document) (es : list event) :
  targets_ok is_number es = true ->
  let w := run (construct d) es in
  (exists x, currentSlide (app w) = Num x /\
             (1 <=? x)%float = true /\ (x <=? totalSlides (app w))%float = true) /\
  totalSlides (app w) = 12%float.
Proof.
  intros Hok w. pose proof (nav_ok_run d es Hok) as H. fold w in H.
  destruct (nav_ok_number _ H) as (x & Ex & H1 & H2). destruct H as [_ Ht].
  split; [|exact Ht]. exists x. rewrite Ht. auto.
Qed.

Lemma currentSlide_stays_in_range_witness :
  let w := run (construct demo_document)
               [CallGoToSlide (Num 11.5); Fire 0 chart_ok; CallNextSlide;
                CallSetSlide (Num 3); Fire 0 chart_ok; CallPreviousSlide] in
  (exists x, currentSlide (app w) = Num x /\
             (1 <=? x)%float = true /\ (x <=? totalSlides (app w))%float = true) /\
  totalSlides (app w) = 12%float.
Proof.
  apply (currentSlide_stays_in_range demo_document
           [CallGoToSlide (Num 11.5); Fire 0 chart_ok; CallNextSlide;
            CallSetSlide (Num 3); Fire 0 chart_ok; CallPreviousSlide]).
  vm_compute. reflexivity.
Defined.

(** ** Guards of the navigation operations *)

(** C2. While [isTransitioning] is true, [nextSlide], [previousSlide],
    [goToSlide] and [setSlide] return the world they were given, whatever the
    target: the instance is unchanged and the list of pending timers has not
    grown. *)
Theorem navigation_is_noop_while_transitioning (w : World) :
  isTransitioning (app w) = true ->
  nextSlide w = w /\ previousSlide w = w /\
  (forall n, goToSlide n w = w) /\ (forall n, setSlide n w = w).
Proof.
  intros Ht. repeat split.
  - unfold nextSlide. rewrite Ht. reflexivity.
  - unfold previousSlide. rewrite Ht. reflexivity.
  - intros n. apply goToSlide_blocked. auto.
  - intros n. apply goToSlide_blocked. auto.
Qed.

Lemma navigation_is_noop_while_transitioning_witness :
  isTransitioning (app demo_in_transition) = true /\
  nextSlide demo_in_transition = demo_in_transition /\
  previousSlide demo_in_transition = demo_in_transition /\
  (forall n, goToSlide n demo_in_transition = demo_in_transition) /\
  (forall n, setSlide n demo_in_transition = demo_in_transition).
Proof.
  split; [reflexivity|].
  apply (navigation_is_noop_while_transitioning demo_in_transition). reflexivity.
Defined.

(** C3. When not transitioning, [nextSlide] with [currentSlide] equal to
    [totalSlides] and [previousSlide] with [currentSlide] equal to [1] return
    the world they were given, so no transition is started.  Equality is that
    of JavaScript numbers. *)
Theorem boundary_moves_are_noops (w : World) :
  isTransitioning (app w) = false ->
  (strict_eq (currentSlide (app w)) (totalSlides (app w)) = true -> nextSlide w = w) /\
  (strict_eq (currentSlide (app w)) 1 = true -> previousSlide w = w).
Proof.
  intros Ht. split; intros Hc; destruct (currentSlide (app w)) as [x|] eqn:Ex;
    try discriminate; simpl in Hc; apply eqb_leb in Hc as [H1 H2].
  - unfold nextSlide. rewrite Ht, Ex. simpl. rewrite H2. reflexivity.
  - unfold previousSlide. rewrite Ht, Ex. simpl. rewrite H1. reflexivity.
Qed.

Lemma boundary_moves_are_noops_witness :
  (isTransitioning (app demo_last) = false /\
   currentSlide (app demo_last) = Num (totalSlides (app demo_last)) /\
   nextSlide demo_last = demo_last) /\
  (isTransitioning (app demo_world) = false /\
   currentSlide (app demo_world) = Num 1 /\
   previousSlide demo_world = demo_world).
Proof.
  split; (split; [reflexivity|]); (split; [reflexivity|]).
  - apply (boundary_moves_are_noops demo_last); reflexivity.
  - apply (boundary_moves_are_noops demo_world); reflexivity.
Defined.

(** ** The transition protocol *)

(** C4. A [goToSlide] that passes its guard sets [currentSlide] to the target
    at once: on return [getCurrentSlide] is the target while
    [isTransitioning] is true and the settle callback is still pending, as
    the newest timer, with its 50 ms delay. *)
Theorem goToSlide_updates_counter_immediately (x : float) (w : World) :
  isTransitioning (app w) = false ->
  (1 <=? x)%float = true -> (x <=? totalSlides (app w))%float = true ->
  let w' := goToSlide (Num x) w in
  getCurrentSlide w' = Num x /\
  isTransitioning (app w') = true /\
  timers w' = timers w ++ [(50, Settle)].
Proof.
  intros Ht H1 H2. simpl.
  destruct (in_range_passes x _ H1 H2) as [G1 G2].
  rewrite (goToSlide_started (Num x) w G1 G2 Ht).
  repeat split.
Qed.

Lemma goToSlide_updates_counter_immediately_witness :
  getCurrentSlide (goToSlide (Num 5) demo_world) = Num 5 /\
  isTransitioning (app (goToSlide (Num 5) demo_world)) = true /\
  timers (goToSlide (Num 5) demo_world) = timers demo_world ++ [(50, Settle)].
Proof.
  apply (goToSlide_updates_counter_immediately 5 demo_world); reflexivity.
Defined.

Lemma fire_newest l x w env :
  timers w = l ++ [x] ->
  fire (length l) env w =
  run_task (snd x) env (mkWorld (app w) l (startX w) (effects w) (nextHandle w)).
Proof.
  intros E. unfold fire. rewrite E.
  rewrite (list_lookup_middle l [] x (length l) eq_refl).
  rewrite (delete_middle l [] x), app_nil_r. destruct x as [d t]. reflexivity.
Qed.

(** *** Reading the slide list after a change *)

Lemma float_integer_nonneg i z : float_integer i = Some z -> 0 <= z.
Proof.
  unfold float_integer. destruct (Prim2SF i) as [s|s| |s m e]; try discriminate.
  - intros [= <-]. lia.
  - destruct s; [discriminate|].
    destruct (0 <=? e) eqn:Ee.
    + intros [= <-]. apply Z.leb_le in Ee.
      apply Z.mul_nonneg_nonneg; [lia | apply Z.pow_nonneg; lia].
    + destruct (Z.pos m mod 2 ^ (- e) =? 0); [|discriminate].
      intros [= <-]. apply Z.leb_gt in Ee. apply Z.div_pos; [lia|].
      apply Z.pow_pos_nonneg; lia.
Qed.

(** [mark_slide] changes the slide whose position the key denotes, and no
    other. *)
Lemma lookup_mark_slide b i (l : list bool) (j : nat) :
  mark_slide b i l !! j =
  if decide (float_integer i = Some (Z.of_nat j))
  then (fun _ => b) <$> l !! j
  else l !! j.
Proof.
  unfold mark_slide, slide_position.
  destruct (float_integer i) as [z|] eqn:Ei.
  - pose proof (float_integer_nonneg i z Ei) as Hz.
    destruct (z <? Z.of_nat (length l)) eqn:Elt.
    + apply Z.ltb_lt in Elt. case_decide as Hd.
      * injection Hd as ->. rewrite Nat2Z.id.
        rewrite list_lookup_insert_eq by lia.
        destruct (lookup_lt_is_Some_2 l j ltac:(lia)) as [b' ->]. reflexivity.
      * apply list_lookup_insert_ne. intros <-. apply Hd. f_equal. lia.
    + apply Z.ltb_ge in Elt. case_decide as Hd; [|reflexivity].
      injection Hd as ->. rewrite (lookup_ge_None_2 l j) by lia. reflexivity.
  - case_decide; [discriminate | reflexivity].
Qed.

(** C5. [goToSlide] to the slide already shown, when not transitioning, is
    not a no-op but the whole protocol.  On return [isTransitioning] is set,
    the slide at [currentSlide] has lost its active mark while every other
    slide, the buttons, the counter, the chart and [totalSlides] are as
    before, nothing has been logged, and the settle callback is queued with
    its 50 ms delay.  When that timer fires, the slide at [currentSlide] is
    the only one marked active, the buttons and the counter are rewritten for
    [currentSlide], the transition ends and, on slide 8 only, a chart render
    is queued with a 200 ms delay; the chart, [totalSlides] and the effect
    log are still as before the call. *)
Theorem goToSlide_current_runs_protocol (w : World) (env : ChartEnv) (x : float) :
  isTransitioning (app w) = false ->
  currentSlide (app w) = Num x ->
  (1 <=? x)%float = true -> (x <=? totalSlides (app w))%float = true ->
  let w' := goToSlide (Num x) w in
  let w'' := fire (length (timers w)) env w' in
  let here (j : nat) := float_integer (x - 1)%float = Some (Z.of_nat j) in
  (w' <> w /\
   isTransitioning (app w') = true /\
   currentSlide (app w') = Num x /\
   (forall j, slides (app w') !! j =
      if decide (here j) then (fun _ => false) <$> slides (app w) !! j
      else slides (app w) !! j) /\
   prevBtn (app w') = prevBtn (app w) /\
   nextBtn (app w') = nextBtn (app w) /\
   currentSlideSpan (app w') = currentSlideSpan (app w) /\
   totalSlidesSpan (app w') = totalSlidesSpan (app w) /\
   bookmakerChart (app w') = bookmakerChart (app w) /\
   totalSlides (app w') = totalSlides (app w) /\
   timers w' = timers w ++ [(50, Settle)] /\
   effects w' = effects w /\ startX w' = startX w /\ nextHandle w' = nextHandle w) /\
  (isTransitioning (app w'') = false /\
   currentSlide (app w'') = Num x /\
   (forall j, slides (app w'') !! j =
      (fun _ => bool_decide (here j)) <$> slides (app w) !! j) /\
   prevBtn (app w'') =
     (fun _ => mkButton (x =? 1)%float
                 (if (x =? 1)%float then "Start" else "← Previous")) <$> prevBtn (app w) /\
   nextBtn (app w'') =
     (fun _ => mkButton (x =? totalSlides (app w))%float
                 (if (x =? totalSlides (app w))%float then "End" else "Next →"))
       <$> nextBtn (app w) /\
   currentSlideSpan (app w'') = (fun _ => Value (Num x)) <$> currentSlideSpan (app w) /\
   totalSlidesSpan (app w'') =
     (fun _ => Value (Num (totalSlides (app w)))) <$> totalSlidesSpan (app w) /\
   bookmakerChart (app w'') = bookmakerChart (app w) /\
   totalSlides (app w'') = totalSlides (app w) /\
   timers w'' = timers w ++ (if (x =? 8)%float then [(200, InitChart)] else []) /\
   effects w'' = effects w /\ startX w'' = startX w /\ nextHandle w'' = nextHandle w).
Proof.
  intros Ht Hc H1 H2. cbv zeta.
  destruct (in_range_passes x _ H1 H2) as [G1 G2].
  rewrite (goToSlide_started (Num x) w G1 G2 Ht).
  split.
  - split; [intros E; apply (f_equal (fun w => isTransitioning (app w))) in E;
            simpl in E; congruence|].
    simpl. rewrite Hc. simpl. repeat split.
    intros j. apply lookup_mark_slide.
  - rewrite (fire_newest (timers w) (50, Settle)
               (transition_started (Num x) w) env eq_refl).
    simpl snd. unfold run_task. rewrite settle_eq. cbn [app timers effects].
    match goal with |- context [refresh ?a0] =>
      destruct (refresh_fields a0) as (F1 & F2 & F3 & F4 & F5);
      destruct (refresh_display a0) as (D1 & D2 & D3 & D4);
      rewrite F1, F2, F3, F4, F5, D1, D2, D3, D4
    end.
    simpl. rewrite Hc. simpl. repeat split.
    intros j. rewrite lookup_mark_slide, list_lookup_fmap, lookup_mark_slide.
    destruct (slides (app w) !! j); repeat case_decide; try contradiction;
      simpl; rewrite ?bool_decide_eq_true_2, ?bool_decide_eq_false_2 by assumption;
      reflexivity.
Qed.

Lemma goToSlide_current_runs_protocol_witness :
  let w' := goToSlide (Num 8) demo_trigger in
  let w'' := fire 1 chart_ok w' in
  (isTransitioning (app w') = true /\
   slides (app w') !! 7%nat = Some false /\
   timers w' = [(200, InitChart); (50, Settle)]) /\
  (isTransitioning (app w'') = false /\
   slides (app w'') !! 7%nat = Some true /\
   slides (app w'') !! 6%nat = Some false /\
   prevBtn (app w'') = Some (mkButton false "← Previous") /\
   nextBtn (app w'') = Some (mkButton false "Next →") /\
   currentSlideSpan (app w'') = Some (Value (Num 8)) /\
   timers w'' = [(200, InitChart); (200, InitChart)]).
Proof.
  destruct (goToSlide_current_runs_protocol demo_trigger chart_ok 8
              eq_refl eq_refl eq_refl eq_refl)
    as [(_ & T1 & _ & S1 & _ & _ & _ & _ & _ & _ & Q1 & _)
        (T2 & _ & S2 & P2 & N2 & C2 & _ & _ & _ & Q2 & _)].
  pose proof (S1 7%nat) as S17. pose proof (S2 7%nat) as S27.
  pose proof (S2 6%nat) as S26.
  vm_compute in S17, S27, S26, P2, N2, C2, Q1, Q2 |- *.
  repeat split; assumption.
Defined.

(** ** Whole slide numbers *)

Lemma digits2_pos_size m : digits2_pos m = Pos.size m.
Proof. induction m as [m IH|m IH|]; simpl; rewrite ?IH; reflexivity. Qed.

Lemma normal_mantissa_lower m : digits2_pos m = 53%positive -> 2 ^ 52 <= Z.pos m.
Proof.
  intros H. rewrite digits2_pos_size in H.
  pose proof (Pos.size_le m) as Hle. rewrite H in Hle.
  change (2 ^ 53)%positive with 9007199254740992%positive in Hle.
  change (2 ^ 52) with 4503599627370496.
  apply Pos2Z.pos_le_pos in Hle. rewrite Pos2Z.inj_xO in Hle. clear H. lia.
Qed.

Lemma normal_mantissa_upper m : digits2_pos m = 53%positive -> Z.pos m < 2 ^ 53.
Proof.
  intros H. rewrite digits2_pos_size in H.
  pose proof (Pos.size_gt m) as Hgt. rewrite H in Hgt.
  change (2 ^ 53)%positive with 9007199254740992%positive in Hgt.
  change (2 ^ 53) with 9007199254740992. apply Pos2Z.pos_lt_pos. exact Hgt.
Qed.

(** A valid double with exponent above the smallest has a full mantissa. *)
Lemma valid_normal m e :
  valid_binary (S754_finite false m e) = true -> -1074 < e ->
  2 ^ 52 <= Z.pos m < 2 ^ 53.
Proof.
  intros Hv He.
  unfold valid_binary, bounded, canonical_mantissa, fexp, SpecFloat.emin in Hv.
  apply andb_prop in Hv as [Hc _]. apply Z.eqb_eq in Hc.
  unfold FloatOps.prec, FloatOps.emax in Hc.
  assert (Hd : digits2_pos m = 53%positive) by lia.
  split; [apply normal_mantissa_lower | apply normal_mantissa_upper]; exact Hd.
Qed.

Lemma SFltb_finite m0 e0 m e :
  SFltb (S754_finite false m0 e0) (S754_finite false m e) =
  match e0 ?= e with
  | Lt => true
  | Gt => false
  | Eq => match (m0 ?= m)%positive with Lt => true | _ => false end
  end.
Proof.
  unfold SFltb, SFcompare, Pos.compare.
  destruct (e0 ?= e); reflexivity.
Qed.

Lemma float_of_Prim2SF (x : float) s : Prim2SF x = s -> x = SF2Prim s.
Proof. intros <-. symmetry. apply SF2Prim_Prim2SF. Qed.

(** A multiple of [2^k] between two multiples of [2^k]. *)
Lemma multiple_between (n k lo hi : Z) :
  0 < k -> n mod k = 0 -> lo * k <= n < (hi + 1) * k ->
  exists q, n = q * k /\ lo <= q <= hi.
Proof.
  intros Hk Hm Hb. exists (n / k).
  pose proof (Z.div_mod n k ltac:(lia)) as Hd. rewrite Hm in Hd.
  split; [lia | nia].
Qed.

(** A whole number that passes the guard of [goToSlide] on a deck of twelve is
    one of the slide numbers [1 .. 12]. *)
Lemma whole_target_on_a_slide (x : float) :
  is_whole (Num x) = true ->
  (x <? 1)%float = false -> (12 <? x)%float = false ->
  In x slide_numbers.
Proof.
  unfold is_whole. rewrite !ltb_spec.
  replace (Prim2SF 1) with (S754_finite false 4503599627370496 (-52))
    by (vm_compute; reflexivity).
  replace (Prim2SF 12) with (S754_finite false 6755399441055744 (-49))
    by (vm_compute; reflexivity).
  pose proof (Prim2SF_valid x) as Hv.
  destruct (Prim2SF x) as [s|s| |s m e] eqn:E; try discriminate.
  destruct s; [intros _ H; discriminate H|].
  rewrite !SFltb_finite. intros Hw H1 H2.
  assert (He : -52 <= e <= -49).
  { split.
    - destruct (e ?= -52) eqn:Ec; try discriminate;
        [apply Z.compare_eq in Ec | rewrite Z.compare_gt_iff in Ec]; lia.
    - destruct (-49 ?= e) eqn:Ec; try discriminate;
        [apply Z.compare_eq in Ec | rewrite Z.compare_gt_iff in Ec]; lia. }
  assert (Htop : e = -49 -> Z.pos m <= 6755399441055744).
  { intros ->. rewrite Z.compare_refl in H2.
    rewrite Pos2Z.inj_compare in H2.
    destruct (6755399441055744 ?= Z.pos m) eqn:Ec; try discriminate.
    - apply Z.compare_eq in Ec. lia.
    - rewrite Z.compare_gt_iff in Ec. lia. }
  destruct (valid_normal m e Hv ltac:(lia)) as [Hlo Hhi].
  change (2 ^ 52) with 4503599627370496 in Hlo.
  change (2 ^ 53) with 9007199254740992 in Hhi.
  assert (Ee : (0 <=? e) = false) by (apply Z.leb_gt; lia).
  rewrite Ee in Hw. simpl in Hw. apply Z.eqb_eq in Hw.
  apply float_of_Prim2SF in E. subst x.
  assert (e = -52 \/ e = -51 \/ e = -50 \/ e = -49) as [-> | [-> | [-> | ->]]] by lia.
  - change (2 ^ (- -52)) with 4503599627370496 in Hw.
    destruct (multiple_between (Z.pos m) 4503599627370496 1 1 ltac:(lia) Hw ltac:(lia)) as (q & Hq & Hb).
    assert (Hm : Z.pos m = 4503599627370496) by lia; injection Hm as ->.
    vm_compute. repeat (first [left; reflexivity | right]).
  - change (2 ^ (- -51)) with 2251799813685248 in Hw.
    destruct (multiple_between (Z.pos m) 2251799813685248 2 3 ltac:(lia) Hw ltac:(lia)) as (q & Hq & Hb).
    assert (q = 2 \/ q = 3) as [-> | ->] by lia;
      [assert (Hm : Z.pos m = 4503599627370496) by lia; injection Hm as ->
      |assert (Hm : Z.pos m = 6755399441055744) by lia; injection Hm as ->];
      vm_compute; repeat (first [left; reflexivity | right]).
  - change (2 ^ (- -50)) with 1125899906842624 in Hw.
    destruct (multiple_between (Z.pos m) 1125899906842624 4 7 ltac:(lia) Hw ltac:(lia)) as (q & Hq & Hb).
    assert (q = 4 \/ q = 5 \/ q = 6 \/ q = 7) as [-> | [-> | [-> | ->]]] by lia;
      [assert (Hm : Z.pos m = 4503599627370496) by lia; injection Hm as ->
      |assert (Hm : Z.pos m = 5629499534213120) by lia; injection Hm as ->
      |assert (Hm : Z.pos m = 6755399441055744) by lia; injection Hm as ->
      |assert (Hm : Z.pos m = 7881299347898368) by lia; injection Hm as ->];
      vm_compute; repeat (first [left; reflexivity | right]).
  - change (2 ^ (- -49)) with 562949953421312 in Hw.
    specialize (Htop eq_refl).
    destruct (multiple_between (Z.pos m) 562949953421312 8 12 ltac:(lia) Hw ltac:(lia)) as (q & Hq & Hb).
    assert (q = 8 \/ q = 9 \/ q = 10 \/ q = 11 \/ q = 12)
      as [-> | [-> | [-> | [-> | ->]]]] by lia;
      [assert (Hm : Z.pos m = 4503599627370496) by lia; injection Hm as ->
      |assert (Hm : Z.pos m = 5066549580791808) by lia; injection Hm as ->
      |assert (Hm : Z.pos m = 5629499534213120) by lia; injection Hm as ->
      |assert (Hm : Z.pos m = 6192449487634432) by lia; injection Hm as ->
      |assert (Hm : Z.pos m = 6755399441055744) by lia; injection Hm as ->];
      vm_compute; repeat (first [left; reflexivity | right]).
Qed.

(** What the code computes on each of the twelve slide numbers. *)
Lemma slide_number_facts (x : float) :
  In x slide_numbers ->
  exists p : nat,
    (p < 12)%nat /\
    float_integer (x - 1)%float = Some (Z.of_nat p) /\
    (x <? 1)%float = false /\ (12 <? x)%float = false /\
    ((12 <=? x)%float = false -> In (x + 1)%float slide_numbers) /\
    ((x <=? 1)%float = false -> In (x - 1)%float slide_numbers).
Proof.
  unfold slide_numbers. simpl In. intros H.
  repeat (destruct H as [<- | H];
          [match goal with
           | |- context [((?c - 1)%float)] =>
               let p := eval vm_compute in
                 (match float_integer (c - 1)%float with
                  | Some z => Z.to_nat z | None => 0%nat end) in
               exists p
           end;
           split; [apply Nat.ltb_lt; reflexivity|];
           split; [vm_compute; reflexivity|];
           split; [vm_compute; reflexivity|];
           split; [vm_compute; reflexivity|];
           split; intros Hc; vm_compute in Hc; try discriminate Hc;
           vm_compute; repeat (first [left; reflexivity | right])|]).
  contradiction.
Qed.

(** ** Exactly one active slide when settled *)

Lemma active_from_hidden k (l : list bool) :
  active_from k ((fun _ => false) <$> l) = [].
Proof. revert k. induction l as [|b l IH]; intros k; simpl; auto. Qed.

Lemma active_from_shown (l : list bool) : forall i k,
  (i < length l)%nat ->
  active_from k (<[i:=true]> ((fun _ => false) <$> l)) = [(k + i)%nat].
Proof.
  induction l as [|b l IH]; intros i k Hi; simpl in Hi; [lia|].
  destruct i as [|i]; simpl.
  - rewrite active_from_hidden. f_equal. lia.
  - rewrite IH by lia. f_equal. lia.
Qed.

Lemma length_mark_slide b i (l : list bool) : length (mark_slide b i l) = length l.
Proof.
  unfold mark_slide. destruct (slide_position l i); [apply length_insert | reflexivity].
Qed.

Lemma enough_slides_twelve (l : list bool) :
  enough_slides 12 l = true -> (12 <= length l)%nat.
Proof.
  unfold enough_slides.
  replace (float_integer 12) with (Some 12) by (vm_compute; reflexivity).
  intros H. apply Z.leb_le in H. lia.
Qed.

Lemma showCurrentSlide_active a x :
  currentSlide a = Num x -> In x slide_numbers ->
  (12 <= length (slides a))%nat ->
  only_current_active (showCurrentSlide a).
Proof.
  intros Hc Hx Hlen.
  destruct (slide_number_facts x Hx) as (p & Hp & Hi & _).
  exists p. unfold showCurrentSlide, active_slides. simpl. rewrite Hc. simpl.
  split; [exact Hi|].
  unfold mark_slide, slide_position. rewrite Hi, length_fmap.
  assert (E : (Z.of_nat p <? Z.of_nat (length (slides a))) = true)
    by (apply Z.ltb_lt; lia).
  rewrite E, Nat2Z.id. apply (active_from_shown (slides a) p 0). lia.
Qed.

Lemma on_a_slide_goToSlide x w :
  In x slide_numbers ->
  on_a_slide (app w) -> on_a_slide (app (goToSlide (Num x) w)).
Proof.
  intros Hx [Hc Ht].
  destruct (goToSlide_cases (Num x) w) as [E | (_ & _ & _ & E)]; rewrite E;
    [split; assumption|].
  split; [exists x; split; [reflexivity | exact Hx] | exact Ht].
Qed.

(** The invariants behind the single active slide. *)
Lemma deck_invariant_run d es :
  targets_ok is_whole es = true ->
  deck_ok (app (construct d)) ->
  let w := run (construct d) es in
  on_a_slide (app w) /\ deck_ok (app w) /\ settled_ok (app w).
Proof.
  intros Hok Hdeck.
  assert (Hgo : forall n w,
            on_a_slide (app w) /\ deck_ok (app w) /\ settled_ok (app w) ->
            (goToSlide n w = w \/ exists x, n = Num x /\ In x slide_numbers) ->
            on_a_slide (app (goToSlide n w)) /\ deck_ok (app (goToSlide n w)) /\
            settled_ok (app (goToSlide n w))).
  { intros n w (Hs & Hd & Hset) [E | (x & -> & Hx)]; [rewrite E; auto|].
    split; [apply on_a_slide_goToSlide; assumption|].
    destruct (goToSlide_cases (Num x) w) as [E | (_ & _ & _ & E)]; rewrite E;
      [auto|].
    split.
    - unfold deck_ok, enough_slides in *. simpl. rewrite length_mark_slide. exact Hd.
    - unfold settled_ok. simpl. discriminate. }
  apply (preserved_run
           (fun w => on_a_slide (app w) /\ deck_ok (app w) /\ settled_ok (app w))
           is_whole);
    try (intros; assumption).
  - (* goToSlide with a whole target *)
    intros n w Hn H. apply Hgo; [exact H|].
    destruct (goToSlide_cases n w) as [E | (H1 & H2 & _ & _)]; [left; exact E|].
    right. destruct n as [x|]; [|discriminate]. exists x. split; [reflexivity|].
    destruct H as ((_ & Ht) & _). rewrite Ht in H2.
    apply whole_target_on_a_slide; assumption.
  - (* nextSlide *)
    intros w H. destruct (nextSlide_cases w) as [E | (Hg & _ & E)]; rewrite E;
      [exact H|].
    apply Hgo; [exact H|]. right.
    destruct H as (((x & Ex & Hx) & Ht) & _). rewrite Ex, Ht in Hg. simpl in Hg.
    rewrite Ex. simpl. exists (x + 1)%float. split; [reflexivity|].
    destruct (slide_number_facts x Hx) as (_ & _ & _ & _ & _ & Hup & _).
    exact (Hup Hg).
  - (* previousSlide *)
    intros w H. destruct (previousSlide_cases w) as [E | (Hg & _ & E)]; rewrite E;
      [exact H|].
    apply Hgo; [exact H|]. right.
    destruct H as (((x & Ex & Hx) & Ht) & _). rewrite Ex in Hg. simpl in Hg.
    rewrite Ex. simpl. exists (x - 1)%float. split; [reflexivity|].
    destruct (slide_number_facts x Hx) as (_ & _ & _ & _ & _ & _ & Hdown).
    exact (Hdown Hg).
  - (* settle *)
    intros w (((x & Ex & Hx) & Ht) & Hd & _). rewrite settle_refresh.
    destruct (refresh_fields (app w)) as (E1 & E2 & E3 & E4 & _).
    split; [|split].
    + unfold on_a_slide. rewrite E1, E2. eauto.
    + unfold deck_ok in *. rewrite E2, E4.
      unfold enough_slides in *. rewrite length_mark_slide, length_fmap. exact Hd.
    + intros _. unfold only_current_active, active_slides. rewrite E1, E4.
      unfold deck_ok in Hd. rewrite Ht in Hd.
      apply (showCurrentSlide_active (app w) x Ex Hx), enough_slides_twelve, Hd.
  - (* initializeBookmakerChart *)
    intros env w H. destruct (initializeBookmakerChart_app env w) as [c ->]. exact H.
  - (* the constructor *)
    destruct (construct_refresh d) as (E & _). rewrite E in Hdeck |- *.
    match goal with |- context [refresh ?a] =>
      destruct (refresh_fields a) as (E1 & E2 & E3 & E4 & _); set (a0 := a) in *
    end.
    assert (Hx : In 1%float slide_numbers) by (left; reflexivity).
    split; [|split; [exact Hdeck|]].
    + unfold on_a_slide. rewrite E1, E2. split; [exists 1%float; auto | reflexivity].
    + intros _. unfold only_current_active, active_slides. rewrite E1, E4.
      unfold deck_ok in Hdeck. rewrite E2, E4 in Hdeck.
      unfold enough_slides in Hdeck. rewrite length_mark_slide, length_fmap in Hdeck.
      apply (showCurrentSlide_active a0 1%float eq_refl Hx).
      apply enough_slides_twelve. exact Hdeck.
Qed.

(** C6, counterexample.  On a page with twelve slides, [goToSlide(2.5)] passes
    the guard; after its settle the state is not transitioning and no slide
    is active, because [slides[1.5]] does not exist. *)
Lemma fractional_target_has_no_active_slide :
  let w := run (construct demo_document) [CallGoToSlide (Num 2.5); Fire 0 chart_ok] in
  enough_slides (getTotalSlides (construct demo_document))
                (doc_slides demo_document) = true /\
  isTransitioning (app w) = false /\
  active_slides (app w) = [].
Proof. vm_compute. repeat split. Qed.

(** C6, amended.  If the page has at least [totalSlides] slides and every
    target handed to [goToSlide] or [setSlide] is a whole number then, after
    any sequence of events, a state that is not transitioning has exactly one
    active slide, the one whose number is [currentSlide] (position
    [currentSlide - 1] of the list). *)
Theorem settled_state_has_one_active_slide (d : Document) (es : list event) :
  targets_ok is_whole es = true ->
  enough_slides (getTotalSlides (construct d)) (doc_slides d) = true ->
  let w := run (construct d) es in
  isTransitioning (app w) = false ->
  exists p : nat,
    float_integer (ToNumber (currentSlide (app w)) - 1)%float = Some (Z.of_nat p) /\
    active_slides (app w) = [p].
Proof.
  intros Hok Hlen w Ht.
  assert (Hdeck : deck_ok (app (construct d))).
  { unfold deck_ok. destruct (construct_refresh d) as (E & _). rewrite E.
    match goal with |- context [refresh ?a] =>
      destruct (refresh_fields a) as (_ & E2 & _ & E4 & _)
    end.
    unfold getTotalSlides in Hlen. rewrite E, E2 in Hlen. rewrite E2, E4.
    unfold enough_slides in *.
    rewrite length_mark_slide, length_fmap. exact Hlen. }
  destruct (deck_invariant_run d es Hok Hdeck) as (_ & _ & Hs).
  apply Hs, Ht.
Qed.

Lemma settled_state_has_one_active_slide_witness :
  let w := run (construct demo_document)
               [CallNextSlide; Fire 0 chart_ok; CallGoToSlide (Num 8); Fire 0 chart_ok;
                CallSetSlide (Num (-3)); CallGoToSlide (Num 40)] in
  exists p : nat,
    float_integer (ToNumber (currentSlide (app w)) - 1)%float = Some (Z.of_nat p) /\
    active_slides (app w) = [p].
Proof.
  apply (settled_state_has_one_active_slide demo_document
           [CallNextSlide; Fire 0 chart_ok; CallGoToSlide (Num 8); Fire 0 chart_ok;
            CallSetSlide (Num (-3)); CallGoToSlide (Num 40)]);
    vm_compute; reflexivity.
Defined.

(** ** At most one live chart *)

Lemma live_handles_app l k :
  live_handles (l ++ k) = fold_left live_step k (live_handles l).
Proof. unfold live_handles. apply fold_left_app. Qed.

Lemma never_two_live_app l : forall live k,
  never_two_live live (l ++ k) <->
  never_two_live live l /\ never_two_live (fold_left live_step l live) k.
Proof.
  induction l as [|e l IH]; intros live k; simpl.
  - destruct k; simpl; tauto.
  - rewrite IH. tauto.
Qed.

Lemma never_two_live_prefix log : forall live p,
  never_two_live live log -> p `prefix_of` log ->
  (length (fold_left live_step p live) <= 1)%nat.
Proof.
  induction log as [|e log IH]; intros live p H Hp.
  - apply prefix_nil_inv in Hp. subst p. simpl in *. tauto.
  - destruct p as [|e' p]; [simpl in *; tauto|].
    pose proof (prefix_cons_inv_1 _ _ _ _ Hp) as ->.
    apply prefix_cons_inv_2 in Hp. simpl in *. apply IH; tauto.
Qed.

Lemma chart_inv_extend w w' sfx :
  chart_inv w ->
  effects w' = effects w ++ sfx ->
  never_two_live (option_list (bookmakerChart (app w))) sfx ->
  fold_left live_step sfx (option_list (bookmakerChart (app w)))
    = option_list (bookmakerChart (app w')) ->
  chart_inv w'.
Proof.
  intros [H1 H2] E Hn Hl. unfold chart_inv, chart_owned in *.
  rewrite E, never_two_live_app, live_handles_app.
  fold (live_handles (effects w)). rewrite H2. auto.
Qed.

Lemma chart_inv_same w w' :
  effects w' = effects w -> bookmakerChart (app w') = bookmakerChart (app w) ->
  chart_inv w -> chart_inv w'.
Proof.
  intros E1 E2 [H1 H2]. unfold chart_inv, chart_owned in *. rewrite E1, E2. auto.
Qed.

Lemma chart_inv_emit e w :
  (forall live, live_step live e = live) ->
  chart_inv w -> chart_inv (emit e w).
Proof.
  intros He H. apply (chart_inv_extend w (emit e w) [e] H eq_refl).
  - destruct H as [_ H2]. simpl. rewrite He.
    destruct (bookmakerChart (app w)); simpl; lia.
  - simpl. apply He.
Qed.

Lemma filter_out_only (h : ChartHandle) : filter (fun h' => h' <> h) [h] = [].
Proof. rewrite filter_cons, filter_nil. case_decide; [congruence | reflexivity]. Qed.

(** The effects of a call that finds the canvas. *)
Lemma initializeBookmakerChart_effects env w :
  canvasFound env = true ->
  let w' := world_of (initializeBookmakerChart env w) in
  effects w' =
    effects w
    ++ match bookmakerChart (app w) with Some h => [ChartDestroy h] | None => [] end
    ++ (if chartThrows env
        then [ConsoleError "Error creating chart:"]
        else [ChartNew (nextHandle w) chartData;
              ConsoleLog "Chart initialized successfully" []]) /\
  bookmakerChart (app w') =
    (if chartThrows env then None else Some (nextHandle w)).
Proof.
  intros Hc. unfold initializeBookmakerChart, newChart. rewrite Hc. simpl.
  destruct (bookmakerChart (app w)) as [h|] eqn:Hb, (chartThrows env); simpl;
    rewrite <- ?app_assoc, ?Hb; split; reflexivity.
Qed.

Lemma chart_inv_initializeBookmakerChart env w :
  chart_inv w -> chart_inv (world_of (initializeBookmakerChart env w)).
Proof.
  intros H. destruct (canvasFound env) eqn:Hc.
  - destruct (initializeBookmakerChart_effects env w Hc) as [E1 E2].
    apply (chart_inv_extend w _ _ H E1); rewrite ?E2;
      destruct (bookmakerChart (app w)) as [h|], (chartThrows env);
      simpl; rewrite ?filter_out_only; simpl; auto with lia.
  - unfold initializeBookmakerChart. rewrite Hc. simpl.
    apply chart_inv_emit; [reflexivity | assumption].
Qed.

Lemma chart_inv_goToSlide n w : chart_inv w -> chart_inv (goToSlide n w).
Proof.
  intros H. destruct (goToSlide_cases n w) as [E | (_ & _ & _ & E)];
    rewrite E; [assumption|]. revert H. apply chart_inv_same; reflexivity.
Qed.

Lemma chart_inv_run d es : chart_inv (run (construct d) es).
Proof.
  apply (preserved_run chart_inv (fun _ => true)).
  - intros msg args w. apply chart_inv_emit. reflexivity.
  - intros w. apply chart_inv_emit. reflexivity.
  - intros x w. apply chart_inv_same; reflexivity.
  - intros i w. apply chart_inv_same; reflexivity.
  - intros n w _. apply chart_inv_goToSlide.
  - intros w H. destruct (nextSlide_cases w) as [E | (_ & _ & E)]; rewrite E;
      [assumption|]. apply chart_inv_goToSlide, chart_inv_emit; [reflexivity | exact H].
  - intros w H. destruct (previousSlide_cases w) as [E | (_ & _ & E)]; rewrite E;
      [assumption|]. apply chart_inv_goToSlide, chart_inv_emit; [reflexivity | exact H].
  - intros w. destruct (settle_outside w) as (E' & _).
    apply chart_inv_same; [exact E'|].
    rewrite settle_refresh. apply refresh_fields.
  - intros env w. apply chart_inv_initializeBookmakerChart.
  - apply targets_ok_any.
  - destruct (construct_refresh d) as (E & _ & E6).
    unfold chart_inv, chart_owned. rewrite E, E6.
    match goal with |- context [refresh ?a] =>
      destruct (refresh_fields a) as (_ & _ & _ & _ & E5)
    end.
    rewrite E5. simpl. auto.
Qed.

(** C7. Whatever events a freshly constructed app receives (in particular any
    sequence of [initializeBookmakerChart] calls), at no point of the effect
    log are two chart handles live.  A call that finds the canvas while
    [bookmakerChart] holds a handle first destroys that handle, and only then
    constructs the new chart; afterwards [bookmakerChart] is the new handle,
    or [null] if the constructor threw. *)
Theorem at_most_one_live_chart (d : Document) (es : list event) :
  (forall p, p `prefix_of` effects (run (construct d) es) ->
             (length (live_handles p) <= 1)%nat) /\
  (forall w env h,
     bookmakerChart (app w) = Some h -> canvasFound env = true ->
     let w' := world_of (initializeBookmakerChart env w) in
     effects w' =
       effects w ++ ChartDestroy h ::
         (if chartThrows env
          then [ConsoleError "Error creating chart:"]
          else [ChartNew (nextHandle w) chartData;
                ConsoleLog "Chart initialized successfully" []]) /\
     bookmakerChart (app w') =
       (if chartThrows env then None else Some (nextHandle w))).
Proof.
  split.
  - intros p Hp. destruct (chart_inv_run d es) as [H _].
    exact (never_two_live_prefix _ _ _ H Hp).
  - intros w env h Hh Hc.
    destruct (initializeBookmakerChart_effects env w Hc) as [E1 E2].
    rewrite Hh in E1. split; assumption.
Qed.

Lemma at_most_one_live_chart_witness :
  (length (live_handles (effects (run (construct demo_document) two_renders))) <= 1)%nat /\
  (let w' := world_of (initializeBookmakerChart chart_ok demo_with_chart) in
   effects w' =
     effects demo_with_chart ++
       [ChartDestroy 0%nat; ChartNew 1%nat chartData;
        ConsoleLog "Chart initialized successfully" []] /\
   bookmakerChart (app w') = Some 1%nat).
Proof.
  split.
  - apply (proj1 (at_most_one_live_chart demo_document two_renders)).
    reflexivity.
  - apply (proj2 (at_most_one_live_chart demo_document two_renders)
                 demo_with_chart chart_ok 0%nat); reflexivity.
Defined.

(** ** Failure of the chart constructor *)

(** C8. On a reachable state, a call of [initializeBookmakerChart] always
    returns normally.  If it found the canvas and [new Chart] threw, the
    error was reported on the console, [bookmakerChart] is [null] and no
    handle is live; if [new Chart] succeeded, [bookmakerChart] is a handle
    and it is the only live one. *)
Theorem chart_failure_is_contained (d : Document) (es : list event) (env : ChartEnv) :
  let w := run (construct d) es in
  let w' := world_of (initializeBookmakerChart env w) in
  initializeBookmakerChart env w = Normal tt w' /\
  (canvasFound env = true -> chartThrows env = true ->
   bookmakerChart (app w') = None /\ live_handles (effects w') = [] /\
   last (effects w') = Some (ConsoleError "Error creating chart:")) /\
  (canvasFound env = true -> chartThrows env = false ->
   exists h, bookmakerChart (app w') = Some h /\ live_handles (effects w') = [h]).
Proof.
  intros w w'. split; [apply initializeBookmakerChart_normal|].
  assert (Hinv : chart_inv w') by apply chart_inv_initializeBookmakerChart, chart_inv_run.
  destruct Hinv as [_ Hown]. unfold chart_owned in Hown.
  split; intros Hc Ht;
    destruct (initializeBookmakerChart_effects env w Hc) as [E1 E2];
    fold w' in E1, E2; rewrite Ht in E1, E2; rewrite Hown, E2.
  - repeat split. rewrite E1, app_assoc. apply last_snoc.
  - exists (nextHandle w). split; reflexivity.
Qed.

Lemma chart_failure_is_contained_witness :
  (let w' := world_of (initializeBookmakerChart chart_fails
                         (run (construct demo_document) two_renders)) in
   bookmakerChart (app w') = None /\ live_handles (effects w') = [] /\
   last (effects w') = Some (ConsoleError "Error creating chart:")) /\
  (let w' := world_of (initializeBookmakerChart chart_ok
                         (run (construct demo_document) two_renders)) in
   exists h, bookmakerChart (app w') = Some h /\ live_handles (effects w') = [h]).
Proof.
  split.
  - apply (proj1 (proj2 (chart_failure_is_contained demo_document two_renders chart_fails)));
      reflexivity.
  - apply (proj2 (proj2 (chart_failure_is_contained demo_document two_renders chart_ok)));
      reflexivity.
Defined.

(** ** The arbitrage calculator *)

(** The two branches of [calculateArbitrageProfit]. *)
Lemma calculateArbitrageProfit_branches odds1 odds2 :
  DataUtils.calculateArbitrageProfit odds1 odds2 =
  if (totalImpliedProb odds1 odds2 <? 1)%float
  then JString (toFixed (profit_of odds1 odds2) 2)
  else JNumber 0.
Proof. reflexivity. Qed.

Lemma no_arbitrage_returns_zero odds1 odds2 :
  (1 <=? totalImpliedProb odds1 odds2)%float = true ->
  DataUtils.calculateArbitrageProfit odds1 odds2 = JNumber 0.
Proof.
  intros H. rewrite calculateArbitrageProfit_branches.
  rewrite (leb_excludes_ltb _ _ H). reflexivity.
Qed.

(** *** [toFixed] on sample values *)

Example toFixed_rounds_on_the_exact_value :
  toFixed 1.005 2 = "1.00" /\ toFixed 8.345 2 = "8.35" /\ toFixed 2.5 0 = "3" /\
  toFixed 0.005 2 = "0.01" /\ toFixed (-0.001) 2 = "-0.00" /\
  toFixed 123.456 2 = "123.46" /\ toFixed 0.000001 7 = "0.0000010".
Proof. vm_compute. repeat split. Qed.

Example toFixed_of_large_and_special_values :
  toFixed 1e21 2 = "1e+21" /\
  toFixed 1180591620717411303424 2 = "1.1805916207174113e+21" /\
  toFixed 1e20 2 = "100000000000000000000.00" /\
  toFixed infinity 2 = "Infinity" /\ toFixed nan 2 = "NaN".
Proof. vm_compute. repeat split. Qed.

(** *** Decimal numerals *)

Lemma pretty_N_char_nonzero (x : N) :
  (0 < x < 10)%N -> is_nonzero_digit (pretty_N_char x) = true.
Proof.
  intros H.
  assert (x = 1 \/ x = 2 \/ x = 3 \/ x = 4 \/ x = 5 \/ x = 6
          \/ x = 7 \/ x = 8 \/ x = 9)%N as Hx by lia.
  repeat (destruct Hx as [-> | Hx]; [reflexivity|]). subst x. reflexivity.
Qed.

Lemma pretty_N_go_leading (x : N) : forall s,
  (0 < x)%N ->
  exists c r, pretty_N_go x s = String c r /\ is_nonzero_digit c = true.
Proof.
  induction (N.lt_wf_0 x) as [x _ IH]; intros s Hx.
  rewrite pretty_N_go_step by assumption.
  destruct (N.eq_0_gt_0_cases (x `div` 10)) as [E | Hpos].
  - rewrite E, pretty_N_go_0. eexists _, _. split; [reflexivity|].
    apply pretty_N_char_nonzero.
    pose proof (N.div_mod x 10 ltac:(lia)) as Hdm.
    pose proof (N.mod_lt x 10 ltac:(lia)). lia.
  - apply IH; [|assumption]. apply N.div_lt; lia.
Qed.

Lemma decimal_leading (n : Z) :
  0 < n -> exists c r, decimal n = String c r /\ is_nonzero_digit c = true.
Proof.
  intros Hn. destruct n as [|q|q]; try lia.
  unfold decimal, pretty, pretty_Z, pretty, pretty_positive, pretty, pretty_N.
  case_decide; [discriminate|]. apply pretty_N_go_leading. lia.
Qed.

Lemma nonzero_digit_not_minus c :
  is_nonzero_digit c = true -> Ascii.eqb c "-" = false.
Proof.
  intros H. destruct (Ascii.eqb_spec c "-") as [-> | _]; [discriminate | reflexivity].
Qed.

Lemma has_nonzero_digit_app s t :
  has_nonzero_digit (s +:+ t) = has_nonzero_digit s || has_nonzero_digit t.
Proof.
  induction s as [|c s IH]; simpl; [reflexivity|].
  rewrite IH, orb_assoc. reflexivity.
Qed.

Lemma leading_digit_positive c r :
  is_nonzero_digit c = true -> is_positive (JString (String c r)) = true.
Proof.
  intros H. unfold is_positive. simpl. rewrite (nonzero_digit_not_minus c H), H.
  simpl. apply orb_true_r.
Qed.

Lemma substring_all s : String.substring 0 (String.length s) s = s.
Proof. induction s as [|c s IH]; simpl; [reflexivity | rewrite IH; reflexivity]. Qed.

Lemma substring_split s : forall a,
  (a <= String.length s)%nat ->
  String.substring 0 a s +:+ String.substring a (String.length s - a) s = s.
Proof.
  induction s as [|c s IH]; intros a Ha; simpl in Ha.
  - assert (a = 0)%nat as -> by lia. reflexivity.
  - destruct a as [|a].
    + simpl. rewrite substring_all. reflexivity.
    + simpl.
      change (String c (String.substring 0 a s +:+
                        String.substring a (String.length s - a) s) = String c s).
      f_equal. apply IH. lia.
Qed.

Lemma length_zeros n : String.length (zeros n) = n.
Proof. induction n as [|n IH]; simpl; [reflexivity | rewrite IH; reflexivity]. Qed.

Lemma length_append s t :
  String.length (s +:+ t) = (String.length s + String.length t)%nat.
Proof. induction s as [|c s IH]; simpl; [reflexivity | rewrite IH; reflexivity]. Qed.

(** A numeral cut in two around a decimal point is positive when it has a
    digit other than [0] and does not start with a minus sign. *)
Lemma pointed_numeral_positive s a f :
  (1 <= a)%nat -> (a + f = String.length s)%nat ->
  starts_with_minus s = false ->
  has_nonzero_digit s = true ->
  is_positive
    (JString (String.substring 0 a s +:+ "." +:+ String.substring a f s)) = true.
Proof.
  intros Ha Hf Hm Hd. unfold is_positive.
  assert (Hd' : has_nonzero_digit
            (String.substring 0 a s +:+ "." +:+ String.substring a f s) = true).
  { rewrite !has_nonzero_digit_app. simpl (has_nonzero_digit ".").
    rewrite orb_false_l, <- has_nonzero_digit_app.
    replace f with (String.length s - a)%nat by lia.
    rewrite substring_split by lia. exact Hd. }
  rewrite Hd', orb_true_r, andb_true_r.
  destruct s as [|c s]; [simpl in Hf; lia|].
  destruct a as [|a]; [lia|]. simpl in *. rewrite Hm. reflexivity.
Qed.

Lemma fixed_notation_positive n f :
  0 < n -> f <> 0%nat -> is_positive (JString (fixed_notation n f)) = true.
Proof.
  intros Hn Hf. unfold fixed_notation.
  destruct (decimal_leading n Hn) as (c & r & E & Hc).
  destruct (Nat.eqb_spec f 0) as [|_]; [contradiction|].
  set (m := decimal n) in *.
  assert (Hk : (1 <= String.length m)%nat) by (rewrite E; simpl; lia).
  assert (Hm : starts_with_minus m = false)
    by (rewrite E; simpl; apply nonzero_digit_not_minus, Hc).
  assert (Hd : has_nonzero_digit m = true) by (rewrite E; simpl; rewrite Hc; reflexivity).
  destruct (Nat.leb_spec (String.length m) f) as [Hle | Hgt].
  - apply pointed_numeral_positive.
    + lia.
    + rewrite length_append, length_zeros. lia.
    + destruct (f + 1 - String.length m)%nat eqn:Ez; [lia | reflexivity].
    + rewrite has_nonzero_digit_app, Hd. apply orb_true_r.
  - apply pointed_numeral_positive; [lia | lia | assumption | assumption].
Qed.

(** *** Exponent notation *)

Lemma strip_zeros_positive fuel : forall v, 0 < v -> 0 < strip_zeros fuel v.
Proof.
  induction fuel as [|fuel IH]; intros v Hv; simpl; [assumption|].
  destruct (v mod 10 =? 0) eqn:E; simpl; [|assumption].
  destruct (v =? 0) eqn:E0; simpl; [assumption|].
  apply IH. apply Z.eqb_eq in E.
  pose proof (Z.div_mod v 10 ltac:(lia)). lia.
Qed.

Lemma exponent_notation_positive v :
  0 < v -> is_positive (JString (exponent_notation v)) = true.
Proof.
  intros Hv. unfold exponent_notation.
  destruct (decimal_leading _ (strip_zeros_positive
              (Z.to_nat (Z.of_nat (String.length (decimal v)))) v Hv))
    as (c & r & E & Hc).
  rewrite E. destruct r; exact (leading_digit_positive c _ Hc).
Qed.

Lemma zero_does_not_round_to m e : rounds_to (S754_finite false m e) 0 = false.
Proof. reflexivity. Qed.

Lemma candidate_positive m e X d k v :
  0 <= X -> candidate (S754_finite false m e) X d k = Some v -> 0 < v.
Proof.
  intros HX. unfold candidate.
  set (p := 10 ^ (d - k)). set (lo := X / p * p).
  assert (Hp : 0 <= p) by (apply Z.pow_nonneg; lia).
  assert (Hlo : 0 <= lo).
  { unfold lo. destruct (Z.eq_dec p 0) as [-> | Hne]; [lia|].
    apply Z.mul_nonneg_nonneg; [apply Z.div_pos; lia | lia]. }
  assert (Hz : forall u, 0 <= u -> rounds_to (S754_finite false m e) u = true -> 0 < u).
  { intros u Hu Hr. destruct (Z.eq_dec u 0) as [-> | Hne]; [|lia].
    rewrite zero_does_not_round_to in Hr. discriminate. }
  destruct (rounds_to (S754_finite false m e) lo) eqn:Rlo,
           (rounds_to (S754_finite false m e) (lo + p)) eqn:Rhi;
    repeat case_match; intros [= <-];
    first [apply Hz; [lia | assumption]].
Qed.

Lemma shortest_positive fuel m e X d : forall k,
  0 < X -> 0 < shortest fuel (S754_finite false m e) X d k.
Proof.
  induction fuel as [|fuel IH]; intros k HX; simpl; [assumption|].
  destruct (candidate (S754_finite false m e) X d k) as [v|] eqn:E.
  - apply (candidate_positive m e X d k v); [lia | assumption].
  - apply IH, HX.
Qed.

(** *** Doubles of at least 0.005 *)

Lemma SFleb_finite m0 e0 m e :
  SFleb (S754_finite false m0 e0) (S754_finite false m e) =
  match e0 ?= e with
  | Lt => true
  | Gt => false
  | Eq => match (m0 ?= m)%positive with Gt => false | _ => true end
  end.
Proof.
  unfold SFleb, SFcompare, Pos.compare.
  destruct (e0 ?= e); reflexivity.
Qed.

(** The shape of a double that is at least [0.005], the double
    [5764607523034235 * 2^-60]. *)
Lemma at_least_half_cent (p : float) :
  (0.005 <=? p)%float = true ->
  Prim2SF p = S754_infinity false \/
  exists m e, Prim2SF p = S754_finite false m e /\
    ((-60 < e /\ 2 ^ 52 <= Z.pos m) \/ (e = -60 /\ 5764607523034235 <= Z.pos m)).
Proof.
  rewrite leb_spec.
  replace (Prim2SF 0.005) with (S754_finite false 5764607523034235 (-60))
    by (vm_compute; reflexivity).
  pose proof (Prim2SF_valid p) as Hv.
  destruct (Prim2SF p) as [s|s| |s m e].
  - intros H. discriminate H.
  - destruct s; intros H; [discriminate H | auto].
  - intros H. discriminate H.
  - destruct s; [intros H; discriminate H|].
    rewrite SFleb_finite. intros H. right. exists m, e. split; [reflexivity|].
    unfold valid_binary, bounded, canonical_mantissa, fexp, SpecFloat.emin in Hv.
    apply andb_prop in Hv as [Hc _]. apply Z.eqb_eq in Hc.
    unfold FloatOps.prec, FloatOps.emax in Hc.
    destruct (-60 ?= e) eqn:Ecmp; try discriminate.
    + apply Z.compare_eq in Ecmp. subst e. right. split; [reflexivity|].
      destruct (5764607523034235 ?= m)%positive eqn:Em; try discriminate.
      * apply Pos.compare_eq in Em. lia.
      * rewrite Pos.compare_lt_iff in Em. lia.
    + rewrite Z.compare_lt_iff in Ecmp. left. split; [assumption|].
      apply normal_mantissa_lower. lia.
Qed.

Lemma nearest_scaled_positive m e :
  (-60 < e /\ 2 ^ 52 <= Z.pos m) \/ (e = -60 /\ 5764607523034235 <= Z.pos m) ->
  0 < nearest_scaled m e 2.
Proof.
  intros H. unfold nearest_scaled. change (10 ^ Z.of_nat 2) with 100.
  destruct (e <? 0) eqn:Ee.
  - apply Z.ltb_lt in Ee.
    assert (Hq : 0 < 2 ^ (- e)) by (apply Z.pow_pos_nonneg; lia).
    assert (Hm : 2 ^ (- e) <= 200 * Z.pos m).
    { destruct H as [[He Hm] | [-> Hm]].
      - pose proof (Z.pow_le_mono_r 2 (- e) 59 ltac:(lia) ltac:(lia)) as Hp.
        change (2 ^ 59) with 576460752303423488 in Hp.
        change (2 ^ 52) with 4503599627370496 in Hm. lia.
      - change (2 ^ (- -60)) with 1152921504606846976. lia. }
    apply Z.div_str_pos. lia.
  - apply Z.ltb_ge in Ee.
    assert (0 < 2 ^ e) by (apply Z.pow_pos_nonneg; lia). nia.
Qed.

(** A profit of at least [0.005] is formatted as a positive numeral. *)
Lemma toFixed_positive (p : float) :
  (0.005 <=? p)%float = true -> is_positive (JString (toFixed p 2)) = true.
Proof.
  intros H. unfold toFixed.
  destruct (at_least_half_cent p H) as [-> | (m & e & -> & Hme)]; [reflexivity|].
  cbv zeta. destruct (10 ^ 21 <=? Z.pos m ≪ e) eqn:Ebig.
  - apply Z.leb_le in Ebig.
    change (is_positive (JString (exponent_notation
              (shortest 17 (S754_finite false m e) (Z.pos m ≪ e)
                 (Z.of_nat (String.length (decimal (Z.pos m ≪ e)))) 1))) = true).
    apply exponent_notation_positive, shortest_positive.
    change (10 ^ 21) with 1000000000000000000000 in Ebig. lia.
  - change (is_positive (JString (fixed_notation (nearest_scaled m e 2) 2)) = true).
    apply fixed_notation_positive; [apply nearest_scaled_positive, Hme | discriminate].
Qed.

(** C9, counterexample.  At odds [2.00001] against [2.00001] the implied
    probabilities sum to less than [1], yet the value returned is ["0.00"],
    which is not positive. *)
Lemma thin_margin_is_not_positive : ~ zero_or_positive 2.00001 2.00001.
Proof.
  intros [_ H].
  assert (E : (1 <=? totalImpliedProb 2.00001 2.00001)%float = false)
    by (vm_compute; reflexivity).
  specialize (H E).
  assert (F : is_positive (DataUtils.calculateArbitrageProfit 2.00001 2.00001) = false)
    by (vm_compute; reflexivity).
  congruence.
Qed.

(** C9, amended.  [calculateArbitrageProfit] returns the number [0] whenever
    the implied probabilities sum to at least [1]; when they sum to less than
    [1] it returns the profit percentage [((1 - sum) / sum) * 100] rounded to
    two decimals by [toFixed(2)], which is positive whenever the unrounded
    profit is at least [0.005] and can be ["0.00"] below that (as for
    [2.00001, 2.00001]); [2.0, 2.0] gives [0] and [2.10, 2.10] gives the
    positive value ["5.00"]. *)
Theorem arbitrage_profit_rounded (odds1 odds2 : float) :
  ((1 <=? totalImpliedProb odds1 odds2)%float = true ->
   DataUtils.calculateArbitrageProfit odds1 odds2 = JNumber 0) /\
  ((totalImpliedProb odds1 odds2 <? 1)%float = true ->
   DataUtils.calculateArbitrageProfit odds1 odds2
     = JString (toFixed (profit_of odds1 odds2) 2) /\
   ((0.005 <=? profit_of odds1 odds2)%float = true ->
    is_positive (DataUtils.calculateArbitrageProfit odds1 odds2) = true)) /\
  DataUtils.calculateArbitrageProfit 2 2 = JNumber 0 /\
  DataUtils.calculateArbitrageProfit 2.1 2.1 = JString "5.00" /\
  is_positive (DataUtils.calculateArbitrageProfit 2.1 2.1) = true /\
  DataUtils.calculateArbitrageProfit 2.00001 2.00001 = JString "0.00".
Proof.
  split; [apply no_arbitrage_returns_zero|].
  split.
  - intros H. rewrite calculateArbitrageProfit_branches, H.
    split; [reflexivity | apply toFixed_positive].
  - repeat split; vm_compute; reflexivity.
Qed.

Lemma arbitrage_profit_rounded_witness :
  DataUtils.calculateArbitrageProfit 1.5 1.5 = JNumber 0 /\
  DataUtils.calculateArbitrageProfit 2.5 1.9
    = JString (toFixed (profit_of 2.5 1.9) 2) /\
  is_positive (DataUtils.calculateArbitrageProfit 2.5 1.9) = true.
Proof.
  split; [|split].
  - apply (proj1 (arbitrage_profit_rounded 1.5 1.5)). vm_compute. reflexivity.
  - apply (proj1 (proj2 (arbitrage_profit_rounded 2.5 1.9))). vm_compute. reflexivity.
  - apply (proj1 (proj2 (arbitrage_profit_rounded 2.5 1.9)));
      vm_compute; reflexivity.
Defined.

(** C10. The two branches return values of different types: when the implied
    probabilities sum to less than [1] the result is a string, the profit
    formatted by [toFixed(2)] (["5.00"] for [2.10, 2.10]); when they sum to
    at least [1] it is the number [0]; and the only number ever returned is
    [0], so no caller receives a numeric profit. *)
Theorem profit_is_a_string_or_the_number_zero (odds1 odds2 : float) :
  ((totalImpliedProb odds1 odds2 <? 1)%float = true ->
   exists s, DataUtils.calculateArbitrageProfit odds1 odds2 = JString s /\
             s = toFixed (profit_of odds1 odds2) 2) /\
  ((1 <=? totalImpliedProb odds1 odds2)%float = true ->
   DataUtils.calculateArbitrageProfit odds1 odds2 = JNumber 0) /\
  (forall x, DataUtils.calculateArbitrageProfit odds1 odds2 = JNumber x -> x = 0%float) /\
  DataUtils.calculateArbitrageProfit 2.1 2.1 = JString "5.00".
Proof.
  split; [|split; [apply no_arbitrage_returns_zero|split]].
  - intros H. eexists. split; [|reflexivity].
    rewrite calculateArbitrageProfit_branches, H. reflexivity.
  - intros x. rewrite calculateArbitrageProfit_branches.
    destruct (totalImpliedProb odds1 odds2 <? 1)%float; congruence.
  - vm_compute. reflexivity.
Qed.

Lemma profit_is_a_string_or_the_number_zero_witness :
  (exists s, DataUtils.calculateArbitrageProfit 3 3 = JString s /\
             s = toFixed (profit_of 3 3) 2) /\
  DataUtils.calculateArbitrageProfit 1.25 4 = JNumber 0.
Proof.
  split.
  - apply (proj1 (profit_is_a_string_or_the_number_zero 3 3)). vm_compute. reflexivity.
  - apply (proj1 (proj2 (profit_is_a_string_or_the_number_zero 1.25 4))).
    vm_compute. reflexivity.
Defined.
